(** * EXFOR client: the C5M metadata and covariance parsers and the CSV
      column resolver of [exfor_client.py], embedded as Rocq functions.

    Python [str] values are modelled as [string]; a character is a code
    point below 256.  Python [float] values are binary64 numbers, modelled
    by the primitive floats of the kernel; [x = y] on them is identity of
    the stored value (a NaN is equal to itself here, unlike under [==]). *)

From Stdlib Require Import Ascii String Floats ZArith Uint63.
From stdpp Require Import gmap strings list fin_maps sorting.

Set Warnings "-inexact-float".
Open Scope string_scope.
Open Scope list_scope.

(** ** Python string builtins used by the source *)

Module Py.

(** [str.isspace] on one character: the white space that [strip] and
    [split] remove (code points below 256). *)
Definition is_space (c : ascii) : bool :=
  bool_decide (nat_of_ascii c ∈ [9; 10; 11; 12; 13; 28; 29; 30; 31; 32; 133; 160]).

(** Line boundaries of [str.splitlines] (code points below 256). *)
Definition is_linebreak (c : ascii) : bool :=
  bool_decide (nat_of_ascii c ∈ [10; 11; 12; 13; 28; 29; 30; 133]).

Definition is_empty (s : string) : bool :=
  match s with EmptyString => true | String _ _ => false end.

(** [s.splitlines()]: a CR LF pair is one boundary, and a final boundary
    opens no further line. *)
Fixpoint splitlines (s : string) : list string :=
  match s with
  | EmptyString => []
  | String c s' =>
      if is_linebreak c then
        match s' with
        | String d s'' =>
            if ((nat_of_ascii c =? 13) && (nat_of_ascii d =? 10))%nat
            then EmptyString :: splitlines s''
            else EmptyString :: splitlines s'
        | EmptyString => [EmptyString]
        end
      else
        match splitlines s' with
        | [] => [String c EmptyString]
        | l :: ls => String c l :: ls
        end
  end.

Fixpoint lstrip (s : string) : string :=
  match s with
  | EmptyString => EmptyString
  | String c s' => if is_space c then lstrip s' else s
  end.

Fixpoint rstrip (s : string) : string :=
  match s with
  | EmptyString => EmptyString
  | String c s' =>
      let r := rstrip s' in
      if is_space c && is_empty r then EmptyString else String c r
  end.

(** [s.strip()] *)
Definition strip (s : string) : string := rstrip (lstrip s).

(** The longest prefix free of white space, and what follows it. *)
Fixpoint span_token (s : string) : string * string :=
  match s with
  | EmptyString => (EmptyString, EmptyString)
  | String c s' =>
      if is_space c then (EmptyString, s)
      else let '(t, r) := span_token s' in (String c t, r)
  end.

(** [s.split()]: the maximal runs of characters that are not white space. *)
Fixpoint split (s : string) : list string :=
  match s with
  | EmptyString => []
  | String c s' =>
      if is_space c then split s'
      else
        match s' with
        | EmptyString => [String c EmptyString]
        | String d _ =>
            if is_space d then String c EmptyString :: split s'
            else
              match split s' with
              | t :: ts => String c t :: ts
              | [] => [String c EmptyString]
              end
        end
  end.

(** [s.split(None, 1)]: the first token and, when something other than
    white space follows it, the remainder from its first such character to
    the end of [s]. *)
Definition split1 (s : string) : list string :=
  match lstrip s with
  | EmptyString => []
  | s1 =>
      let '(tok, rest) := span_token s1 in
      match lstrip rest with
      | EmptyString => [tok]
      | r => [tok; r]
      end
  end.

(** [s[n:]] *)
Fixpoint drop_chars (n : nat) (s : string) : string :=
  match n, s with
  | O, _ => s
  | S n', String _ s' => drop_chars n' s'
  | S _, EmptyString => EmptyString
  end.

(** [s.startswith(p)] *)
Definition startswith (s p : string) : bool := String.prefix p s.

(** [sub in s] *)
Fixpoint contains (sub s : string) : bool :=
  String.prefix sub s ||
  match s with
  | EmptyString => false
  | String _ s' => contains sub s'
  end.

Definition upper_char (c : ascii) : ascii :=
  let n := nat_of_ascii c in
  if ((97 <=? n) && (n <=? 122))%nat then ascii_of_nat (n - 32) else c.

Definition lower_char (c : ascii) : ascii :=
  let n := nat_of_ascii c in
  if ((65 <=? n) && (n <=? 90))%nat then ascii_of_nat (n + 32) else c.

Fixpoint map_chars (f : ascii → ascii) (s : string) : string :=
  match s with
  | EmptyString => EmptyString
  | String c s' => String (f c) (map_chars f s')
  end.

(** [s.upper()] and [s.lower()] on the letters a-z and A-Z.  The source
    only compares the result with texts made of the letters of EN, EV, DATA
    and null, which no other character is mapped to. *)
Definition upper : string → string := map_chars upper_char.
Definition lower : string → string := map_chars lower_char.

(** Order of [sorted] on strings: lexicographic by code point. *)
Definition str_le (s t : string) : Prop := String.leb s t = true.

#[global] Instance str_le_dec s t : Decision (str_le s t).
Proof. unfold str_le. apply _. Defined.

(** [sorted(xs)] for a list of strings. *)
Definition sorted (xs : list string) : list string := merge_sort str_le xs.

End Py.

(** The line feed. *)
Definition nl : string := String (ascii_of_nat 10) EmptyString.

(** ** Floats *)

(** [float(tok)] is a builtin outside the repository.  The parsers take it
    as a parameter [parse_float], with [None] for the [ValueError] that the
    source catches, and the general statements hold for every such
    function.  [py_float] is that builtin on plain decimal literals
    (optional sign, digits, optional point and digits) whose digits make a
    number below 2^53 with at most 18 of them after the point: both the
    digits' number and the power of ten are then binary64 values, and their
    correctly rounded quotient is the float Python returns.  It serves to
    run the parsers on sample texts, whose tokens are such literals or no
    numbers at all; it gives [None] as well for the other forms that
    Python reads (exponents, inf, nan, underscores), which no sample uses. *)

Definition digit_val (c : ascii) : option Z :=
  let n := nat_of_ascii c in
  if ((48 <=? n) && (n <=? 57))%nat then Some (Z.of_nat (n - 48)) else None.

(** Reads a run of digits: the number read so far, how many digits were
    read, and the rest of the text. *)
Fixpoint read_digits (s : string) (acc : Z) (cnt : nat) : Z * nat * string :=
  match s with
  | EmptyString => (acc, cnt, s)
  | String c s' =>
      match digit_val c with
      | Some d => read_digits s' (10 * acc + d)%Z (S cnt)
      | None => (acc, cnt, s)
      end
  end.

Definition float_of_Z (z : Z) : float := PrimFloat.of_uint63 (Uint63.of_Z z).

Definition decimal_value (body : string) : option float :=
  let '(ip, ni, rest) := read_digits body 0%Z 0 in
  let '(m, nf, rest') :=
    match rest with
    | String "." fr => read_digits fr ip 0
    | _ => (ip, 0, rest)
    end in
  if Py.is_empty rest' && negb ((ni + nf =? 0)%nat)
     && (m <? 2 ^ 53)%Z && (nf <=? 18)%nat
  then Some (float_of_Z m / float_of_Z (10 ^ Z.of_nat nf))%float
  else None.

Definition py_float (tok : string) : option float :=
  match Py.strip tok with
  | String "-" body => PrimFloat.opp <$> decimal_value body
  | String "+" body => decimal_value body
  | body => decimal_value body
  end.

(** ** Outcomes of a call *)

(** The exceptions the modelled code can raise.  [ValueError hs] stands for
    the error whose message ends with the printed list [hs]. *)
Inductive exn : Type :=
  | IndexError
  | ValueError (headers : list string).

Inductive outcome (A : Type) : Type :=
  | Returns (a : A)
  | Raises (e : exn).
Arguments Returns {A} a.
Arguments Raises {A} e.

#[global] Instance outcome_bind : MBind outcome := λ A B k o,
  match o with
  | Returns a => k a
  | Raises e => Raises e
  end.

(** [for i, x in enumerate(l, start): s = body(i, x, s)] *)
Fixpoint for_enum {A St} (body : nat → A → St → outcome St)
    (start : nat) (l : list A) (s : St) : outcome St :=
  match l with
  | [] => Returns s
  | x :: l' => s' ← body start x s; for_enum body (S start) l' s'
  end.

(** [l[i]] and [l[i] = x] for an index that is not negative. *)
Definition get_item {A} (l : list A) (i : nat) : outcome A :=
  match l !! i with
  | Some x => Returns x
  | None => Raises IndexError
  end.

Definition set_item {A} (l : list A) (i : nat) (x : A) : outcome (list A) :=
  if (i <? length l)%nat then Returns (<[i := x]> l) else Raises IndexError.

(** ** [_parse_c5m_metadata] *)

Definition keys : list string :=
  ["TITLE"; "AUTHORS"; "AUTHOR1"; "YEAR"; "REFERENCE1"; "X4REF1";
   "INSTITUTE"; "METHOD"; "REACTION"; "MF"; "MT"; "TARGET"; "PROJ"; "PRODUCT"].

(** The variables of the loop: the dict [meta] and [current_key]. *)
Record meta_state : Type := MetaState {
  meta : gmap string string;
  current_key : option string
}.

(** [current_key and current_key in meta], giving the key and its value. *)
Definition continued_field (st : meta_state) : option (string * string) :=
  match current_key st with
  | Some k =>
      if Py.is_empty k then None
      else match meta st !! k with
           | Some old => Some (k, old)
           | None => None
           end
  | None => None
  end.

(** [key] and [val] of a marker line, from [parts = s.split(None, 1)].
    [s] is stripped and not empty there, so [parts] is not empty
    (see [split1_not_nil]). *)
Definition key_val (parts : list string) : string * string :=
  match parts with
  | [p0] => (Py.strip p0, EmptyString)
  | p0 :: p1 :: _ => (Py.strip p0, Py.strip p1)
  | [] => (EmptyString, EmptyString)
  end.

(** One turn of [for ln in lines]. *)
Definition meta_line (st : meta_state) (ln : string) : meta_state :=
  if negb (Py.startswith ln "#") then st
  else
    match (if Py.startswith ln "#+" then continued_field st else None) with
    | Some (k, old) =>
        MetaState
          (<[k := Py.strip (old +:+ " " +:+ Py.strip (Py.drop_chars 2 ln))]> (meta st))
          (current_key st)
    | None =>
        let s := Py.strip (Py.drop_chars 1 ln) in
        if Py.is_empty s then st
        else
          let '(key, val) := key_val (Py.split1 s) in
          if bool_decide (key ∈ keys)
          then MetaState (<[key := val]> (meta st)) (Some key)
          else MetaState (meta st) None
    end.

Definition meta_lines (lines : list string) (st : meta_state) : meta_state :=
  foldl meta_line st lines.

Definition _parse_c5m_metadata (c5m_text : string) : gmap string string :=
  meta (meta_lines (Py.splitlines c5m_text) (MetaState ∅ None)).

(** ** [_parse_c5m_covariance] *)

(** One entry of [data_rows]. *)
Record point : Type := Point {
  row_E_min : float;
  row_E_max : float;
  row_y : float;
  row_std_pct : float;
  row_corr_list : list float
}.

Abbreviation matrix := (list (list float)).

(** The dict returned for a block with at least one point. *)
Record covariance : Type := Covariance {
  E_min : list float;
  E_max : list float;
  data : list float;
  std_pct : list float;
  sigma : list float;
  corr : matrix;
  cov : matrix
}.

(** The loop that locates the block, from line [i] on: [i0] is set at every
    line that starts with the start marker, and the first line that starts
    with the end marker sets [i1] and leaves the loop. *)
Fixpoint locate (i : nat) (lines : list string) (i0 : option nat)
    : option nat * option nat :=
  match lines with
  | [] => (i0, None)
  | ln :: rest =>
      let i0' := if Py.startswith ln "#COVARDATA" then Some i else i0 in
      if Py.startswith ln "#/COVARDATA" then (i0', Some i)
      else locate (S i) rest i0'
  end.

(** [lines[i0+1:i1]], or [None] where the source returns the empty dict. *)
Definition block_lines (lines : list string) : option (list string) :=
  match locate 0 lines None with
  | (Some i0, Some i1) =>
      if (i1 <=? i0)%nat then None
      else Some (take (i1 - (i0 + 1)) (drop (i0 + 1) lines))
  | _ => None
  end.

(** [m[i][j] = v] *)
Definition set_cell (m : matrix) (i j : nat) (v : float) : outcome matrix :=
  r ← get_item m i; r' ← set_item r j v; set_item m i r'.

(** [m[i][j]] *)
Definition get_cell (m : matrix) (i j : nat) : outcome float :=
  r ← get_item m i; get_item r j.

(** [[[0.0]*n for _ in range(n)]]: n rows that share nothing. *)
Definition zeros (n : nat) : matrix := replicate n (replicate n 0%float).

(** [for i in range(n): s = body(i, s)] *)
Definition for_range {St} (body : nat → St → outcome St) (n : nat) (s : St)
    : outcome St :=
  for_enum (λ _ i, body i) 0 (seq 0 n) s.

(** The body of [for j, v in enumerate(vals)] in row [i]. *)
Definition corr_cell_body (i j : nat) (v : float) (c : matrix) : outcome matrix :=
  if (i <? j)%nat then Returns c
  else
    let rho := (v / 100)%float in
    c1 ← set_cell c i j rho; set_cell c1 j i rho.

Definition corr_row_body (i : nat) (row : point) (c : matrix) : outcome matrix :=
  for_enum (corr_cell_body i) 0 (row_corr_list row) c.

(** The correlation matrix of [data_rows]. *)
Definition build_corr (data_rows : list point) : outcome matrix :=
  let n := length data_rows in
  c ← for_range (λ i c, set_cell c i i 1%float) n (zeros n);
  for_enum corr_row_body 0 data_rows c.

Definition build_sigma (data_rows : list point) : list float :=
  zip_with (λ sp yy, (sp / 100 * yy)%float)
           (row_std_pct <$> data_rows) (row_y <$> data_rows).

Definition cov_cell_body (c : matrix) (sg : list float) (i j : nat) (cv : matrix)
    : outcome matrix :=
  cij ← get_cell c i j;
  si ← get_item sg i;
  sj ← get_item sg j;
  set_cell cv i j (cij * si * sj)%float.

(** The covariance matrix. *)
Definition build_cov (n : nat) (c : matrix) (sg : list float) : outcome matrix :=
  for_range (λ i cv, for_range (cov_cell_body c sg i) n cv) n (zeros n).

(** What follows the row loop: [None] is the empty dict. *)
Definition reconstruct (data_rows : list point) : outcome (option covariance) :=
  let n := length data_rows in
  if (n =? 0)%nat then Returns None
  else
    c ← build_corr data_rows;
    let sg := build_sigma data_rows in
    cv ← build_cov n c sg;
    Returns (Some (Covariance (row_E_min <$> data_rows) (row_E_max <$> data_rows)
                              (row_y <$> data_rows) (row_std_pct <$> data_rows)
                              sg c cv)).

Section Covariance.

Variable parse_float : string → option float.

(** [corr_vals], from [toks[4:]]. *)
Definition corr_vals (toks : list string) : list float :=
  foldl (λ acc t, match parse_float t with
                  | Some v => acc ++ [v]
                  | None => acc
                  end) [] toks.

(** One turn of [for ln in lines[i0+1:i1]]: the point appended to
    [data_rows], or [None] where the turn ends in [continue]. *)
Definition parse_row (ln : string) : option point :=
  if Py.is_empty (Py.strip ln) || Py.startswith ln "#" then None
  else
    match Py.split (Py.strip ln) with
    | t0 :: t1 :: t2 :: t3 :: rest =>
        match parse_float t0, parse_float t1, parse_float t2, parse_float t3 with
        | Some e_min, Some e_max, Some y, Some sp =>
            Some (Point e_min e_max y sp (corr_vals rest))
        | _, _, _, _ => None
        end
    | _ => None
    end.

Definition parse_rows (block : list string) : list point :=
  foldl (λ acc ln, match parse_row ln with
                   | Some p => acc ++ [p]
                   | None => acc
                   end) [] block.

Definition _parse_c5m_covariance (c5m_text : string) : outcome (option covariance) :=
  match block_lines (Py.splitlines c5m_text) with
  | None => Returns None
  | Some block => reconstruct (parse_rows block)
  end.

End Covariance.

(** ** [extract_xy_from_csv_rows] *)

(** A value of a CSV row as [download_dataset_csv] stores it: [None], the
    float parsed from the field, or the field's text; these are the rows
    the resolver is written for.  Of the three, [isinstance(v, (int,
    float))] holds of the float only. *)
Inductive value : Type :=
  | VNone
  | VNum (x : float)
  | VStr (s : string).

Abbreviation record := (gmap string value).

(** The three lists [E], [Y], [DY]. *)
Abbreviation series := (list float * list float * list (option float))%type.

Definition energy_keys : list string :=
  ["EN (EV) 1.1"; "x2(eV)"; "EN(EV)"; "x1(eV)"].

Definition value_keys : list string :=
  ["DATA (B) 0.1"; "y"; "y:Value"; "Data(B)"; "DATA(B)"].

Definition err_keys : list string :=
  ["DATA-ERR (B) 0.911"; "ERR-T"; "ERR-S"; "ERR-SYS"; "dy"].

(** The union of the rows' key sets. *)
Definition present_keys (rows : list record) : gset string :=
  ⋃ (dom <$> rows).

(** [next((k for k in cands if k in present), None)] *)
Definition first_present (cands : list string) (present : gset string)
    : option string :=
  find (λ k, bool_decide (k ∈ present)) cands.

Definition is_energy_like (k : string) : bool :=
  Py.startswith (Py.upper k) "EN" && Py.contains "EV" (Py.upper k).

Definition is_value_like (k : string) : bool :=
  Py.startswith (Py.upper k) "DATA" || String.eqb k "y".

(** One turn of the fallback loop [for k in present_keys]. *)
Definition fallback_body (st : option string * option string) (k : string)
    : option string * option string :=
  let '(ek, vk) := st in
  let ek' := if bool_decide (ek = None) && is_energy_like k then Some k else ek in
  let vk' := if bool_decide (vk = None) && is_value_like k then Some k else vk in
  (ek', vk').

(** [isinstance(v, (int, float))] on the result of [r.get(k)], with the
    number. *)
Definition numeric (v : option value) : option float :=
  match v with
  | Some (VNum x) => Some x
  | _ => None
  end.

(** One turn of [for r in rows]. *)
Definition extract_body (ek vk : string) (dk : option string)
    (acc : series) (r : record) : series :=
  let '(E, Y, DY) := acc in
  let e := r !! ek in
  let y := r !! vk in
  let de := match dk with
            | Some d => if Py.is_empty d then None else r !! d
            | None => None
            end in
  match numeric e, numeric y with
  | Some e', Some y' => (E ++ [e'], Y ++ [y'], DY ++ [numeric de])
  | _, _ => acc
  end.

(** One value of a row in [download_dataset_csv]; [v] is the field that
    [csv.DictReader] read, [None] for a missing one. *)
Definition parse_cell (parse_float : string → option float) (v : option string)
    : value :=
  match v with
  | None => VNone
  | Some t =>
      if Py.is_empty t || String.eqb (Py.lower t) "null" then VNone
      else match parse_float t with
           | Some x => VNum x
           | None => VStr t
           end
  end.

(** The dict [parsed] built from one row of the reader. *)
Definition parse_record (parse_float : string → option float)
    (raw : gmap string (option string)) : record :=
  parse_cell parse_float <$> raw.

Section Resolver.

(** The order in which Python iterates a set is not fixed by its members:
    [set_iter X] is the order met for the set [X]. *)
Variable set_iter : gset string → list string.

(** The headers chosen for energy, value and uncertainty.  The source tests
    [ek is None or vk is None] a second time inside the first test; outside
    it both are set, so one match decides. *)
Definition resolve_keys (rows : list record)
    : outcome (string * string * option string) :=
  let present := present_keys rows in
  let ek := first_present energy_keys present in
  let vk := first_present value_keys present in
  let dk := first_present err_keys present in
  let st :=
    if bool_decide (ek = None) || bool_decide (vk = None)
    then foldl fallback_body (ek, vk) (set_iter present)
    else (ek, vk) in
  match st with
  | (Some ek', Some vk') => Returns (ek', vk', dk)
  | _ => Raises (ValueError (Py.sorted (set_iter present)))
  end.

Definition extract_xy_from_csv_rows (rows : list record) : outcome series :=
  match rows with
  | [] => Returns ([], [], [])
  | _ =>
      '(ek, vk, dk) ← resolve_keys rows;
      Returns (foldl (extract_body ek vk dk) ([], [], []) rows)
  end.

End Resolver.

(** ** The parameters of a query *)

(** What the functions that build a query raise before anything is sent:
    the [ValueError] of a wrong [output], the [ValueError] of a wrong [op],
    the [SystemExit] of an [--extra] item without an equals sign, which
    carries the item, and the [ValueError] of unpacking a list that has not
    two elements. *)
Inductive request_error : Type :=
  | BadOutput
  | BadOp
  | BadExtra (kv : string)
  | BadUnpack.

(** The dict [params]; the order of its keys is left out. *)
Abbreviation params := (gmap string string).

(** [if v: params[k] = v], for [v] that is [None] or a text. *)
Definition add_if_set (k : string) (v : option string) (ps : params) : params :=
  match v with
  | Some t => if Py.is_empty t then ps else <[k := t]> ps
  | None => ps
  end.

(** The first lines of [search_datasets] and of [bulk_download]: the three
    named filters, then [params.update(extra)] when [extra] is a dict that
    is not empty. *)
Definition filter_params (target reaction quantity : option string)
    (extra : option params) : params :=
  let ps := add_if_set "Quantity" quantity
              (add_if_set "Reaction" reaction
                 (add_if_set "Target" target ∅)) in
  match extra with
  | Some ex => if bool_decide (ex = ∅) then ps else ex ∪ ps
  | None => ps
  end.

(** [search_datasets] up to the request: the parameters it sends. *)
Definition search_params (target reaction quantity : option string)
    (extra : option params) (output : string) : request_error + params :=
  let ps := filter_params target reaction quantity extra in
  let o := Py.lower output in
  if String.eqb o "json" then inr (<["json" := EmptyString]> ps)
  else if String.eqb o "xml" then inr (<["xml" := EmptyString]> ps)
  else if String.eqb o "csv" then inr (<["csv" := EmptyString]> ps)
  else if String.eqb o "txt" then inr (<["txt" := EmptyString]> ps)
  else inl BadOutput.

(** [bulk_download] up to the request. *)
Definition bulk_params (target reaction quantity : option string)
    (extra : option params) (op : string) : request_error + params :=
  if bool_decide (op ∈ ["c4"; "c5"; "c5a"; "c5m"; "c5ma"])
  then inr (<["op" := op]> (filter_params target reaction quantity extra))
  else inl BadOp.

(** [download_dataset_c5] up to the request. *)
Definition c5_params (dataset_id op : string) : request_error + params :=
  if bool_decide (op ∈ ["c5"; "c5a"; "c5m"; "c5ma"])
  then inr (<["op" := op]> (<["DatasetID" := dataset_id]> ∅))
  else inl BadOp.

(** [kv.split("=", 1)]: [kv] itself when it has no equals sign, and else
    what stands before the first one and what stands after it. *)
Fixpoint split_eq1 (kv : string) : list string :=
  match kv with
  | EmptyString => [EmptyString]
  | String c r =>
      if Ascii.eqb c "=" then [EmptyString; r]
      else match split_eq1 r with
           | [k] => [String c k]
           | k :: rest => String c k :: rest
           | [] => [String c EmptyString]
           end
  end.

(** The loop of [_cmd_search] and [_cmd_bulk] over [args.extra or []], from
    the dict [extra] built so far. *)
Fixpoint extra_loop (items : list string) (extra : params)
    : request_error + params :=
  match items with
  | [] => inr extra
  | kv :: rest =>
      if negb (Py.contains "=" kv) then inl (BadExtra kv)
      else match split_eq1 kv with
           | [k; v] => extra_loop rest (<[k := v]> extra)
           | _ => inl BadUnpack
           end
  end.

(** The parameters that [_cmd_search] sends for the arguments of the
    command line. *)
Definition cmd_search_params (target reaction quantity : option string)
    (items : list string) (output : string) : request_error + params :=
  match extra_loop items ∅ with
  | inr extra => search_params target reaction quantity (Some extra) output
  | inl e => inl e
  end.

(** The parameters that [_cmd_bulk] sends. *)
Definition cmd_bulk_params (target reaction quantity : option string)
    (items : list string) (op : string) : request_error + params :=
  match extra_loop items ∅ with
  | inr extra => bulk_params target reaction quantity (Some extra) op
  | inl e => inl e
  end.

(** ** Notions used in the statements *)

(** The first token of a marker line after its marker: the candidate key. *)
Definition candidate_key (ln : string) : option string :=
  head (Py.split (Py.drop_chars 1 ln)).

(** A text that does not begin with white space. *)
Definition no_lead (s : string) : Prop :=
  match s with
  | EmptyString => True
  | String c _ => Py.is_space c = false
  end.

(** What holds of the loop's variables at every turn: [current_key] is a
    recognized key that the record holds, and the record maps recognized
    keys to stripped values. *)
Definition meta_inv (st : meta_state) : Prop :=
  (∀ k, current_key st = Some k → k ∈ keys ∧ is_Some (meta st !! k)) ∧
  (∀ k v, meta st !! k = Some v → k ∈ keys ∧ Py.strip v = v).

(** A line that [meta_line] passes over. *)
Definition skipped (ln : string) : Prop :=
  Py.startswith ln "#" = false ∨
  (Py.startswith ln "#" = true ∧ Py.strip (Py.drop_chars 1 ln) = EmptyString).

(** Line [i1] is the first line that starts with the end marker. *)
Definition first_end (lines : list string) (i1 : nat) : Prop :=
  (∃ ln, lines !! i1 = Some ln ∧ Py.startswith ln "#/COVARDATA" = true) ∧
  ∀ k ln, k < i1 → lines !! k = Some ln → Py.startswith ln "#/COVARDATA" = false.

(** Line [i0] is the last line before line [i1] that starts with the start
    marker. *)
Definition last_start_before (lines : list string) (i1 i0 : nat) : Prop :=
  i0 < i1 ∧
  (∃ ln, lines !! i0 = Some ln ∧ Py.startswith ln "#COVARDATA" = true) ∧
  ∀ k ln, i0 < k < i1 → lines !! k = Some ln → Py.startswith ln "#COVARDATA" = false.

(** The block's bounds as the specification words them: the first line
    that starts with the start marker, and the first line after it that
    starts with the end marker. *)
Definition locate_spec (lines : list string) : option (nat * nat) :=
  '(i0, _) ← list_find (λ ln, Py.startswith ln "#COVARDATA" = true) lines;
  '(d, _) ← list_find (λ ln, Py.startswith ln "#/COVARDATA" = true) (drop (i0 + 1) lines);
  Some (i0, i0 + 1 + d).

Definition block_lines_spec (lines : list string) : option (list string) :=
  '(i0, i1) ← locate_spec lines;
  Some (take (i1 - (i0 + 1)) (drop (i0 + 1) lines)).

(** An [n] by [n] matrix. *)
Definition square (n : nat) (m : matrix) : Prop :=
  length m = n ∧ ∀ i r, m !! i = Some r → length r = n.

(** The entry at row [i], column [j]. *)
Definition cell (m : matrix) (i j : nat) : option float :=
  m !! i ≫= (.!! j).

(** The entry that [corr] starts with. *)
Definition default_entry (a b : nat) : float :=
  if decide (a = b) then 1%float else 0%float.

(** The correlation of points [a] and [b] as the rows list it: position
    [min a b] of the list of row [max a b], in percent. *)
Definition corr_entry (rows : list point) (a b : nat) : float :=
  match rows !! (a `max` b) ≫= (λ r, row_corr_list r !! (a `min` b)) with
  | Some v => (v / 100)%float
  | None => default_entry a b
  end.

(** The rows with the correlation list of row [i] cut after position [i]. *)
Definition truncate (rows : list point) : list point :=
  imap (λ i r, Point (row_E_min r) (row_E_max r) (row_y r) (row_std_pct r)
                     (take (S i) (row_corr_list r))) rows.

(** The two rows of the sample covariance block. *)
Definition row0 : string := "0.0 1.0 10.0 5.0 100".
Definition row1 : string := "1.0 2.0 20.0 8.0 50 100".

(** A text with two start markers before the end marker, and one whose
    first end marker comes before the start marker. *)
Definition two_starts : string :=
  "#COVARDATA" +:+ nl +:+ "1 2 3 4" +:+ nl +:+ "#COVARDATA" +:+ nl
  +:+ "5 6 7 8" +:+ nl +:+ "#/COVARDATA" +:+ nl.

Definition end_first : string :=
  "#/COVARDATA" +:+ nl +:+ "#COVARDATA" +:+ nl +:+ "1 2 3 4" +:+ nl
  +:+ "#/COVARDATA" +:+ nl.

(** The sample block inside a text. *)
Definition sample_c5m : string :=
  "#TITLE Example" +:+ nl +:+ "#COVARDATA" +:+ nl +:+ row0 +:+ nl +:+ row1 +:+ nl
  +:+ "#/COVARDATA" +:+ nl.

(** No header of the union is an energy header, by the priority list or by
    the fallback test; the same for the value header. *)
Definition no_energy (present : gset string) : Prop :=
  (∀ k, k ∈ energy_keys → k ∉ present) ∧
  (∀ k, k ∈ present → is_energy_like k = false).

Definition no_value (present : gset string) : Prop :=
  (∀ k, k ∈ value_keys → k ∉ present) ∧
  (∀ k, k ∈ present → is_value_like k = false).

(** A row whose energy and value fields both hold numbers. *)
Definition row_kept (ek vk : string) (r : record) : Prop :=
  is_Some (numeric (r !! ek)) ∧ is_Some (numeric (r !! vk)).

#[global] Instance row_kept_dec ek vk r : Decision (row_kept ek vk r).
Proof. unfold row_kept. apply _. Defined.

(** The row of the sample as the reader gives it, as [download_dataset_csv]
    stores it, and with its three texts taken as the values themselves. *)
Definition sample_raw : gmap string (option string) :=
  {[ "EN (EV) 1.1" := Some "1000"; "DATA (B) 0.1" := Some "2.5";
     "DATA-ERR (B) 0.911" := Some "0.1" ]}.

Definition sample_numbers : record :=
  {[ "EN (EV) 1.1" := VNum 1000; "DATA (B) 0.1" := VNum 2.5;
     "DATA-ERR (B) 0.911" := VNum 0.1 ]}.

Definition sample_texts : record :=
  {[ "EN (EV) 1.1" := VStr "1000"; "DATA (B) 0.1" := VStr "2.5";
     "DATA-ERR (B) 0.911" := VStr "0.1" ]}.

(** A text without white space. *)
Fixpoint no_space (s : string) : bool :=
  match s with
  | EmptyString => true
  | String c s' => negb (Py.is_space c) && no_space s'
  end.

(** The marker lines of a text: those that start with the marker. *)
Definition marker_lines (lines : list string) : list string :=
  filter (λ ln, Py.startswith ln "#" = true) lines.

(** A block whose covariance matrix is not symmetric. *)
Definition skew_c5m : string :=
  "#COVARDATA" +:+ nl +:+ "0 1 1 1 100" +:+ nl +:+ "1 2 10 1 10 100" +:+ nl
  +:+ "#/COVARDATA" +:+ nl.

(** The number that [download_dataset_csv] stores for the field [k] of a
    row of the reader, when it stores one: the field is there, its text is
    not empty and not null in any letter case, and it reads as a float. *)
Definition raw_number (parse_float : string → option float)
    (raw : gmap string (option string)) (k : string) : option float :=
  match raw !! k with
  | Some (Some t) =>
      if Py.is_empty t || String.eqb (Py.lower t) "null" then None
      else parse_float t
  | _ => None
  end.

(** A row with two headers that both pass the fallback test for the
    energy, and none of the priority list. *)
Definition two_energy_like : record :=
  {[ "ENA EV" := VNum 1; "ENB EV" := VNum 2; "y" := VNum 3 ]}.

(** A filter that is given: a text that is not empty. *)
Definition given (v : option string) : option string :=
  match v with
  | Some t => if Py.is_empty t then None else Some t
  | None => None
  end.

(** The parameter that the three named filters give for the key [k]. *)
Definition named_filter (target reaction quantity : option string) (k : string)
    : option string :=
  if String.eqb k "Target" then given target
  else if String.eqb k "Reaction" then given reaction
  else if String.eqb k "Quantity" then given quantity
  else None.

(** The parameter for the key [k] before the output flag or [op] is set:
    the entry of [extra], or else the named filter. *)
Definition filter_param (target reaction quantity : option string)
    (extra : option params) (k : string) : option string :=
  match extra ≫= (.!! k) with
  | Some v => Some v
  | None => named_filter target reaction quantity k
  end.

(** The item [key=value] of the command line. *)
Definition extra_item (p : string * string) : string := p.1 +:+ "=" +:+ p.2.

(** The value of a field after one more continuation line. *)
Definition continued (old ln : string) : string :=
  Py.strip (old +:+ " " +:+ Py.strip (Py.drop_chars 2 ln)).

(** [float(tok)] as [py_float] has it, and on the token nan, in any letter
    case, which Python reads as the float that is not a number. *)
Definition py_float_nan (tok : string) : option float :=
  if String.eqb (Py.lower (Py.strip tok)) "nan" then Some PrimFloat.nan
  else py_float tok.

(** A block whose second row lists nan as its correlation with the first
    point. *)
Definition nan_c5m : string :=
  "#COVARDATA" +:+ nl +:+ "0 1 10 5 100" +:+ nl +:+ "1 2 20 8 nan 100" +:+ nl
  +:+ "#/COVARDATA" +:+ nl.

(** * Properties *)

(** ** Strings *)

Section StringFacts.

Import Py.

Lemma is_empty_true s : is_empty s = true ↔ s = EmptyString.
Proof. destruct s; simpl; split; congruence. Qed.

Lemma is_empty_false s : is_empty s = false ↔ s ≠ EmptyString.
Proof. destruct s; simpl; split; congruence. Qed.

Lemma lstrip_no_lead s : no_lead (lstrip s).
Proof.
  induction s as [|c s IH]; simpl; [done|].
  destruct (is_space c) eqn:Hc; [done|]. simpl. done.
Qed.

Lemma lstrip_id s : no_lead s → lstrip s = s.
Proof. destruct s as [|c s]; simpl; [done|]. intros H. by rewrite H. Qed.

Lemma rstrip_no_lead s : no_lead s → no_lead (rstrip s).
Proof.
  destruct s as [|c s]; simpl; [done|]. intros H. rewrite H. simpl. done.
Qed.

Lemma rstrip_idem s : rstrip (rstrip s) = rstrip s.
Proof.
  induction s as [|c s IH]; simpl; [done|].
  destruct (is_space c && is_empty (rstrip s)) eqn:H; [done|].
  simpl. rewrite IH, H. done.
Qed.

Lemma strip_no_lead s : no_lead (strip s).
Proof. apply rstrip_no_lead, lstrip_no_lead. Qed.

Lemma strip_idem s : strip (strip s) = strip s.
Proof.
  unfold strip at 1. rewrite (lstrip_id (strip s)) by apply strip_no_lead.
  apply rstrip_idem.
Qed.

Lemma strip_empty : strip EmptyString = EmptyString.
Proof. done. Qed.

Lemma app_String c (a b : string) : String c a +:+ b = String c (a +:+ b).
Proof. reflexivity. Qed.

Lemma app_empty_inv (a b : string) :
  a +:+ b = EmptyString → a = EmptyString ∧ b = EmptyString.
Proof. destruct a; [done|]. rewrite app_String. discriminate. Qed.

Lemma rstrip_String c s :
  rstrip s ≠ EmptyString → rstrip (String c s) = String c (rstrip s).
Proof.
  intros H. simpl. destruct (rstrip s); [done|].
  simpl. by rewrite andb_false_r.
Qed.

Lemma rstrip_app a b :
  rstrip b ≠ EmptyString → rstrip (a +:+ b) = a +:+ rstrip b.
Proof.
  intros Hb. induction a as [|c a IH]; [done|].
  rewrite !app_String, rstrip_String; rewrite IH; [done|].
  intros E. by apply app_empty_inv in E as [_ E].
Qed.

(** Two stripped texts joined by a blank need no further stripping. *)
Lemma strip_join a b :
  strip a = a → strip b = b → a ≠ EmptyString → b ≠ EmptyString →
  strip (a +:+ " " +:+ b) = a +:+ " " +:+ b.
Proof.
  intros Ha Hb Hna Hnb.
  assert (La : no_lead a) by (rewrite <- Ha; apply strip_no_lead).
  assert (Lb : no_lead b) by (rewrite <- Hb; apply strip_no_lead).
  assert (Rb : rstrip b = b).
  { unfold strip in Hb. by rewrite (lstrip_id b) in Hb. }
  assert (Rsb : rstrip (" " +:+ b) = " " +:+ b).
  { change (" " +:+ b) with (String " " b).
    rewrite rstrip_String; rewrite Rb; done. }
  unfold strip. rewrite lstrip_id.
  - rewrite rstrip_app; rewrite Rsb; [done|].
    change (" " +:+ b) with (String " " b). discriminate.
  - destruct a; [done|]. rewrite app_String. exact La.
Qed.

Lemma rstrip_empty_no_lead s : no_lead s → rstrip s = EmptyString → s = EmptyString.
Proof.
  destruct s as [|c s]; [done|]. simpl. intros H. rewrite H. discriminate.
Qed.

Lemma strip_empty_lstrip s : strip s = EmptyString → lstrip s = EmptyString.
Proof. apply rstrip_empty_no_lead, lstrip_no_lead. Qed.

Lemma split_lstrip s : split (lstrip s) = split s.
Proof.
  induction s as [|c s IH]; [done|]. simpl.
  destruct (is_space c) eqn:Hc; [done|]. simpl. by rewrite Hc.
Qed.

Lemma span_token_String c s :
  is_space c = false →
  span_token (String c s) = (String c (span_token s).1, (span_token s).2).
Proof. intros Hc. simpl. rewrite Hc. by destruct (span_token s). Qed.

(** [split] takes the first token off a text that begins with one. *)
Lemma split_token c s :
  is_space c = false →
  split (String c s) = (span_token (String c s)).1 :: split (span_token (String c s)).2.
Proof.
  revert c. induction s as [|d s IH]; intros c Hc.
  - simpl. by rewrite Hc.
  - rewrite span_token_String by done.
    change (split (String c (String d s))) with
      (if is_space c then split (String d s)
       else if is_space d then String c EmptyString :: split (String d s)
       else match split (String d s) with
            | t :: ts => String c t :: ts
            | [] => [String c EmptyString]
            end).
    rewrite Hc. destruct (is_space d) eqn:Hd.
    + assert (span_token (String d s) = (EmptyString, String d s)) as ->
        by (simpl; by rewrite Hd).
      done.
    + by rewrite (IH d Hd).
Qed.

Lemma span_token_rstrip s : (span_token (rstrip s)).1 = (span_token s).1.
Proof.
  induction s as [|c s IH]; [done|].
  destruct (is_space c) eqn:Hc.
  - simpl. rewrite Hc. simpl. destruct (is_empty (rstrip s)); simpl; [done|].
    by rewrite Hc.
  - rewrite span_token_String by done.
    simpl rstrip. rewrite Hc. simpl andb. cbv iota.
    rewrite span_token_String by done. simpl. by rewrite IH.
Qed.

(** A token is left as it is by [strip]. *)
Lemma strip_token s : strip (span_token s).1 = (span_token s).1.
Proof.
  assert (H : ∀ s, lstrip (span_token s).1 = (span_token s).1
                   ∧ rstrip (span_token s).1 = (span_token s).1).
  { clear s. induction s as [|c s [IHl IHr]]; [done|].
    destruct (is_space c) eqn:Hc.
    - simpl. by rewrite Hc.
    - rewrite span_token_String by done. simpl. rewrite Hc, IHr. done. }
  unfold strip. destruct (H s) as [-> ->]. done.
Qed.

Lemma split1_not_nil s :
  is_empty (strip s) = false → split1 (strip s) ≠ [].
Proof.
  intros H. unfold split1.
  rewrite (lstrip_id (strip s)) by apply strip_no_lead.
  destruct (strip s) as [|c r]; [done|].
  destruct (span_token (String c r)) as [tok rest].
  by destruct (lstrip rest).
Qed.

(** The key that [meta_line] reads from a marker line is the first token
    of what follows the marker. *)
Lemma key_val_first_token x :
  is_empty (strip x) = false →
  head (split x) = Some (key_val (split1 (strip x))).1.
Proof.
  intros H. rewrite <- split_lstrip.
  pose proof (lstrip_no_lead x) as Hl.
  assert (Hk : (key_val (split1 (strip x))).1 = (span_token (strip x)).1).
  { unfold split1. rewrite (lstrip_id (strip x)) by apply strip_no_lead.
    destruct (strip x) as [|c r] eqn:E; [done|].
    destruct (span_token (String c r)) as [tok rest] eqn:Et.
    assert (Hs : strip tok = tok).
    { change tok with (tok, rest).1. rewrite <- Et. apply strip_token. }
    destruct (lstrip rest); simpl; done. }
  rewrite Hk. unfold strip in *. rewrite span_token_rstrip.
  destruct (lstrip x) as [|c y]; [done|].
  simpl in Hl. rewrite split_token by done. done.
Qed.

Lemma strip_empty_split x : strip x = EmptyString → split x = [].
Proof.
  intros H. rewrite <- split_lstrip. by rewrite (strip_empty_lstrip _ H).
Qed.

Lemma prefix_String c p a s :
  String.prefix (String c p) (String a s)
  = if ascii_dec c a then String.prefix p s else false.
Proof. reflexivity. Qed.

Lemma prefix_empty s : String.prefix EmptyString s = true.
Proof. by destruct s. Qed.

Lemma startswith_hash ln :
  startswith ln "#" = true ↔ ∃ r, ln = String "#" r.
Proof.
  unfold startswith. destruct ln as [|a r].
  - split; [done|]. by intros [? ?].
  - rewrite prefix_String, prefix_empty.
    destruct (ascii_dec "#" a) as [<-|Hne].
    + split; eauto.
    + split; [done|]. intros [? [= ? ?]]. done.
Qed.

Lemma startswith_hash_plus ln :
  startswith ln "#+" = true ↔ ∃ r, ln = String "#" (String "+" r).
Proof.
  unfold startswith. destruct ln as [|a [|b r]].
  - split; [done|]. by intros [? ?].
  - rewrite prefix_String.
    destruct (ascii_dec "#" a); split; try done; by intros [? ?].
  - rewrite !prefix_String, prefix_empty.
    destruct (ascii_dec "#" a) as [<-|Hne].
    + destruct (ascii_dec "+" b) as [<-|Hne].
      * split; eauto.
      * split; [done|]. intros [? [= ?]]. done.
    + split; [done|]. intros [? [= ? ?]]. done.
Qed.

End StringFacts.

(** ** The metadata parser *)

Section MetadataFacts.

Import Py.

Lemma key_not_empty k : k ∈ keys → k ≠ EmptyString.
Proof.
  intros Hk ->. revert Hk.
  by apply (bool_decide_eq_false_1 (EmptyString ∈ keys)).
Qed.

Lemma plus_token_not_key t : String "+" t ∉ keys.
Proof.
  intros H. unfold keys in H.
  repeat (apply elem_of_cons in H as [H|H]; [discriminate H|]).
  by apply elem_of_nil in H.
Qed.

Lemma continued_field_Some st k old :
  continued_field st = Some (k, old) ↔
  current_key st = Some k ∧ k ≠ EmptyString ∧ meta st !! k = Some old.
Proof.
  unfold continued_field. destruct (current_key st) as [k'|].
  - destruct (is_empty k') eqn:He.
    + apply is_empty_true in He. split; [done|]. intros ([= <-] & Hk & _). done.
    + apply is_empty_false in He. destruct (meta st !! k') eqn:Hm.
      * split; [by intros [= <- <-]|]. intros ([= <-] & _ & Hm').
        rewrite Hm in Hm'. by injection Hm' as ->.
      * split; [done|]. intros ([= <-] & _ & Hm'). congruence.
  - split; [done|]. by intros (? & _).
Qed.

Lemma key_val_stripped parts : strip (key_val parts).2 = (key_val parts).2.
Proof. destruct parts as [|p0 [|p1 ?]]; simpl; auto using strip_idem. Qed.

Lemma meta_line_skip_other st ln :
  startswith ln "#" = false → meta_line st ln = st.
Proof. intros H. unfold meta_line. by rewrite H. Qed.

Lemma strip_plus r : strip (String "+" r) ≠ EmptyString.
Proof.
  unfold strip. change (lstrip (String "+" r)) with (String "+" r).
  change (rstrip (String "+" r)) with (String "+" (rstrip r)). done.
Qed.

Lemma meta_line_continue st ln k old :
  startswith ln "#+" = true → current_key st = Some k → k ≠ EmptyString →
  meta st !! k = Some old →
  meta_line st ln
  = MetaState (<[k := strip (old +:+ " " +:+ strip (drop_chars 2 ln))]> (meta st))
              (Some k).
Proof.
  intros Hp Hc Hk Hm. unfold meta_line.
  assert (startswith ln "#" = true) as ->.
  { apply startswith_hash_plus in Hp as [r ->]. apply startswith_hash. eauto. }
  rewrite Hp. simpl negb. cbv iota.
  assert (continued_field st = Some (k, old)) as ->
    by by apply continued_field_Some.
  by rewrite Hc.
Qed.

(** A marker line that is not taken as a continuation. *)
Lemma meta_line_field st ln key :
  startswith ln "#" = true →
  startswith ln "#+" = false ∨ continued_field st = None →
  candidate_key ln = Some key →
  meta_line st ln
  = if bool_decide (key ∈ keys)
    then MetaState
           (<[key := (key_val (split1 (strip (drop_chars 1 ln)))).2]> (meta st))
           (Some key)
    else MetaState (meta st) None.
Proof.
  intros Hh Hc Hk. unfold meta_line. rewrite Hh. simpl negb. cbv iota.
  assert ((if startswith ln "#+" then continued_field st else None) = None) as ->.
  { destruct Hc as [-> | ->]; [done|]. by destruct (startswith ln "#+"). }
  unfold candidate_key in Hk.
  destruct (is_empty (strip (drop_chars 1 ln))) eqn:He.
  - apply is_empty_true, strip_empty_split in He. by rewrite He in Hk.
  - rewrite key_val_first_token in Hk by done.
    destruct (key_val (split1 (strip (drop_chars 1 ln)))) as [key' val].
    simpl in *. by injection Hk as ->.
Qed.

Lemma meta_line_skip_blank st ln :
  startswith ln "#" = true → strip (drop_chars 1 ln) = EmptyString →
  meta_line st ln = st.
Proof.
  intros Hh He. unfold meta_line. rewrite Hh. simpl negb. cbv iota.
  destruct (startswith ln "#+") eqn:Hp.
  - apply startswith_hash_plus in Hp as [r ->]. simpl in He.
    by apply strip_plus in He.
  - by rewrite He.
Qed.

Lemma candidate_key_plus r : ∃ t, candidate_key (String "#" (String "+" r)) = Some (String "+" t).
Proof.
  unfold candidate_key. simpl drop_chars.
  rewrite split_token by done. rewrite span_token_String by done.
  simpl. eauto.
Qed.

Lemma meta_line_orphan st ln :
  startswith ln "#+" = true → continued_field st = None →
  meta_line st ln = MetaState (meta st) None.
Proof.
  intros Hp Hc. pose proof Hp as Hp'.
  apply startswith_hash_plus in Hp' as [r ->].
  destruct (candidate_key_plus r) as [t Ht].
  rewrite (meta_line_field _ _ _ (proj2 (startswith_hash _) (ex_intro _ _ eq_refl))
             (or_intror Hc) Ht).
  rewrite bool_decide_eq_false_2; [done|]. apply plus_token_not_key.
Qed.

Lemma meta_line_inv st ln : meta_inv st → meta_inv (meta_line st ln).
Proof.
  intros [Hcur Hval].
  destruct (startswith ln "#") eqn:Hh;
    [|by rewrite meta_line_skip_other].
  destruct (startswith ln "#+") eqn:Hp.
  - destruct (continued_field st) as [[k old]|] eqn:Hc.
    + apply continued_field_Some in Hc as (Hc & Hk & Hm).
      rewrite (meta_line_continue _ _ _ _ Hp Hc Hk Hm).
      destruct (Hcur _ Hc) as [Hin _]. split; simpl.
      * intros k' [= <-]. split; [done|]. rewrite lookup_insert_eq. eauto.
      * intros k' v. rewrite lookup_insert. case_decide as E.
        -- intros [= <-]. subst k'. split; [done|]. apply strip_idem.
        -- apply Hval.
    + rewrite meta_line_orphan by done. split; simpl; [done|apply Hval].
  - destruct (candidate_key ln) as [key|] eqn:Hk.
    + rewrite (meta_line_field _ _ key Hh (or_introl Hp) Hk).
      case_bool_decide as Hin; split; simpl; try done.
      * intros k' [= <-]. split; [done|]. rewrite lookup_insert_eq. eauto.
      * intros k' v. rewrite lookup_insert. case_decide as E.
        -- intros [= <-]. subst k'. split; [done|]. apply key_val_stripped.
        -- apply Hval.
    + rewrite meta_line_skip_blank; [done..|].
      unfold candidate_key in Hk.
      destruct (is_empty (strip (drop_chars 1 ln))) eqn:He.
      * by apply is_empty_true.
      * rewrite key_val_first_token in Hk by done. done.
Qed.

Lemma meta_lines_inv lines st : meta_inv st → meta_inv (meta_lines lines st).
Proof.
  revert st. induction lines as [|ln lines IH]; intros st H; [done|].
  simpl. apply IH. by apply meta_line_inv.
Qed.

Lemma meta_inv_init : meta_inv (MetaState ∅ None).
Proof. split; simpl; [done|]. intros k v. by rewrite lookup_empty. Qed.

Lemma meta_lines_app l1 l2 st :
  meta_lines (l1 ++ l2) st = meta_lines l2 (meta_lines l1 st).
Proof. unfold meta_lines. apply foldl_app. Qed.

Lemma meta_lines_orphans conts m :
  Forall (λ c, startswith c "#+" = true) conts →
  meta_lines conts (MetaState m None) = MetaState m None.
Proof.
  induction 1 as [|c conts Hc _ IH]; [done|].
  simpl. rewrite meta_line_orphan; done.
Qed.

Lemma meta_lines_skipped skips st :
  Forall skipped skips → meta_lines skips st = st.
Proof.
  induction 1 as [|ln skips Hs _ IH]; [done|]. simpl.
  destruct Hs as [H | [H1 H2]].
  - by rewrite meta_line_skip_other.
  - by rewrite meta_line_skip_blank.
Qed.

(** C5: a continuation line appends its stripped content, joined by one
    blank, to the value of the current field, which the record always
    holds; with no current field, or one the record lacks, the line changes
    nothing; a marker line whose candidate key is not recognized clears the
    current field, so the continuation lines after it are dropped; and the
    sample lines give TITLE the value "Example continued". *)
Theorem C5_metadata_continuation :
  (∀ (pre : list string) (ln k : string),
     let st := meta_lines pre (MetaState ∅ None) in
     startswith ln "#+" = true → current_key st = Some k →
     ∃ old,
       meta st !! k = Some old ∧
       meta_line st ln
       = MetaState (<[k := strip (old +:+ " " +:+ strip (drop_chars 2 ln))]> (meta st))
                   (Some k) ∧
       (old ≠ EmptyString → strip (drop_chars 2 ln) ≠ EmptyString →
        strip (old +:+ " " +:+ strip (drop_chars 2 ln))
        = old +:+ " " +:+ strip (drop_chars 2 ln)))
  ∧ (∀ (st : meta_state) (ln : string),
       startswith ln "#+" = true →
       (current_key st = None
        ∨ ∃ k, current_key st = Some k ∧ meta st !! k = None) →
       meta_line st ln = MetaState (meta st) None)
  ∧ (∀ (st : meta_state) (ln key : string) (conts : list string),
       startswith ln "#" = true → startswith ln "#+" = false →
       candidate_key ln = Some key → key ∉ keys →
       Forall (λ c, startswith c "#+" = true) conts →
       meta_line st ln = MetaState (meta st) None
       ∧ meta_lines (ln :: conts) st = MetaState (meta st) None)
  ∧ _parse_c5m_metadata ("#TITLE Example" +:+ nl +:+ "#+ continued")
    = {[ "TITLE" := "Example continued" ]}.
Proof.
  split; [|split; [|split]].
  - intros pre ln k st Hp Hc.
    destruct (meta_lines_inv pre _ meta_inv_init) as [Hcur Hval].
    fold st in Hcur, Hval.
    destruct (Hcur k Hc) as [Hin [old Hold]]. exists old.
    destruct (Hval k old Hold) as [_ Hs].
    split; [done|]. split.
    + apply meta_line_continue; auto using key_not_empty.
    + intros Hne Hnc. apply strip_join; auto using strip_idem.
  - intros st ln Hp Hc. apply meta_line_orphan; [done|].
    destruct (continued_field st) as [[k old]|] eqn:E; [|done].
    apply continued_field_Some in E as (E1 & _ & E2).
    destruct Hc as [Hc | (k' & Hc & Hm)]; congruence.
  - intros st ln key conts Hh Hp Hk Hnk Hconts.
    assert (Hl : meta_line st ln = MetaState (meta st) None).
    { rewrite (meta_line_field _ _ key Hh (or_introl Hp) Hk).
      by rewrite bool_decide_eq_false_2. }
    split; [done|]. simpl. rewrite Hl. by apply meta_lines_orphans.
  - vm_compute. reflexivity.
Qed.

Lemma C5_metadata_continuation_witness :
  (∃ old,
     meta (meta_lines ["#TITLE Example"] (MetaState ∅ None)) !! "TITLE" = Some old ∧
     meta_line (meta_lines ["#TITLE Example"] (MetaState ∅ None)) "#+ continued"
     = MetaState (<["TITLE" := strip (old +:+ " " +:+ strip (drop_chars 2 "#+ continued"))]>
                    (meta (meta_lines ["#TITLE Example"] (MetaState ∅ None))))
                 (Some "TITLE") ∧
     (old ≠ EmptyString → strip (drop_chars 2 "#+ continued") ≠ EmptyString →
      strip (old +:+ " " +:+ strip (drop_chars 2 "#+ continued"))
      = old +:+ " " +:+ strip (drop_chars 2 "#+ continued")))
  ∧ meta_lines ["#COMMENT x"; "#+ more"] (MetaState {[ "TITLE" := "T" ]} (Some "TITLE"))
    = MetaState {[ "TITLE" := "T" ]} None.
Proof.
  split.
  - apply (proj1 C5_metadata_continuation ["#TITLE Example"] "#+ continued" "TITLE");
      reflexivity.
  - refine (proj2 (proj1 (proj2 (proj2 C5_metadata_continuation))
             (MetaState {[ "TITLE" := "T" ]} (Some "TITLE")) "#COMMENT x" "COMMENT"
             ["#+ more"] _ _ _ _ _)).
    + reflexivity.
    + reflexivity.
    + reflexivity.
    + by apply (bool_decide_eq_false_1 ("COMMENT" ∈ keys)).
    + repeat constructor.
Defined.

(** C10: lines that do not begin with the marker, and marker lines with
    nothing but white space after the marker, leave the current field as it
    is: after a recognized field line and any number of such lines, a
    continuation line still appends to that field. *)
Theorem C10_skipped_lines_keep_field
    (text : string) (pre skips : list string) (fl c key : string) :
  splitlines text = pre ++ fl :: skips ++ [c] →
  startswith fl "#" = true → candidate_key fl = Some key → key ∈ keys →
  Forall skipped skips →
  startswith c "#+" = true →
  let st1 := meta_lines (pre ++ [fl]) (MetaState ∅ None) in
  ∃ val,
    current_key st1 = Some key ∧ meta st1 !! key = Some val ∧
    meta_lines skips st1 = st1 ∧
    _parse_c5m_metadata text
    = <[key := strip (val +:+ " " +:+ strip (drop_chars 2 c))]> (meta st1).
Proof.
  intros Hlines Hh Hk Hin Hskips Hc st1.
  set (st0 := meta_lines pre (MetaState ∅ None)).
  assert (Hfl : st1 = MetaState
            (<[key := (key_val (split1 (strip (drop_chars 1 fl)))).2]> (meta st0))
            (Some key)).
  { unfold st1. rewrite meta_lines_app. fold st0. simpl.
    assert (Hnp : startswith fl "#+" = false).
    { destruct (startswith fl "#+") eqn:Hp; [|done].
      apply startswith_hash_plus in Hp as [r ->].
      destruct (candidate_key_plus r) as [t Ht].
      rewrite Ht in Hk. injection Hk as <-. by apply plus_token_not_key in Hin. }
    rewrite (meta_line_field _ _ key Hh (or_introl Hnp) Hk).
    by rewrite bool_decide_eq_true_2. }
  exists (key_val (split1 (strip (drop_chars 1 fl)))).2.
  assert (Hcur : current_key st1 = Some key) by by rewrite Hfl.
  assert (Hval : meta st1 !! key
                 = Some (key_val (split1 (strip (drop_chars 1 fl)))).2).
  { rewrite Hfl. simpl. apply lookup_insert_eq. }
  split; [done|]. split; [done|].
  split; [by apply meta_lines_skipped|].
  unfold _parse_c5m_metadata. rewrite Hlines.
  replace (pre ++ fl :: skips ++ [c]) with ((pre ++ [fl]) ++ skips ++ [c])
    by by rewrite <- app_assoc.
  rewrite (meta_lines_app (pre ++ [fl])). fold st1.
  rewrite meta_lines_app, (meta_lines_skipped skips) by done.
  change (meta_lines [c] st1) with (meta_line st1 c).
  rewrite (meta_line_continue _ _ key _ Hc Hcur (key_not_empty _ Hin) Hval).
  done.
Qed.

Lemma C10_skipped_lines_keep_field_witness :
  ∃ val,
    current_key (meta_lines ([] ++ ["#TITLE Example"]) (MetaState ∅ None)) = Some "TITLE" ∧
    meta (meta_lines ([] ++ ["#TITLE Example"]) (MetaState ∅ None)) !! "TITLE" = Some val ∧
    meta_lines ["data 1 2"; "#"; ""; "#   "]
               (meta_lines ([] ++ ["#TITLE Example"]) (MetaState ∅ None))
    = meta_lines ([] ++ ["#TITLE Example"]) (MetaState ∅ None) ∧
    _parse_c5m_metadata
      ("#TITLE Example" +:+ nl +:+ "data 1 2" +:+ nl +:+ "#" +:+ nl +:+ nl
       +:+ "#   " +:+ nl +:+ "#+ continued" +:+ nl)
    = <["TITLE" := strip (val +:+ " " +:+ strip (drop_chars 2 "#+ continued"))]>
        (meta (meta_lines ([] ++ ["#TITLE Example"]) (MetaState ∅ None))).
Proof.
  apply (C10_skipped_lines_keep_field _ [] ["data 1 2"; "#"; ""; "#   "]
           "#TITLE Example" "#+ continued" "TITLE").
  - reflexivity.
  - reflexivity.
  - reflexivity.
  - by apply (bool_decide_eq_true_1 ("TITLE" ∈ keys)).
  - repeat constructor; (by left) || (by right).
  - reflexivity.
Defined.

End MetadataFacts.

(** ** The covariance block and its rows *)

Section LocateFacts.

Import Py.

Lemma end_not_start ln :
  startswith ln "#/COVARDATA" = true → startswith ln "#COVARDATA" = false.
Proof.
  unfold startswith. destruct ln as [|a ln]; [done|].
  rewrite !(prefix_String _ _ a). destruct (ascii_dec "#" a); [|done].
  destruct ln as [|b r]; [done|].
  rewrite !(prefix_String _ _ b).
  destruct (ascii_dec "/" b) as [<-|]; [|done].
  intros _. by destruct (ascii_dec "C" "/").
Qed.

Lemma locate_no_end lines i acc :
  (∀ ln, ln ∈ lines → startswith ln "#/COVARDATA" = false) →
  (locate i lines acc).2 = None.
Proof.
  revert i acc. induction lines as [|ln lines IH]; intros i acc H; [done|].
  simpl. rewrite (H ln) by apply list_elem_of_here.
  apply IH. intros ln' Hin. apply H. by apply list_elem_of_further.
Qed.

Lemma first_end_cons ln lines i1 :
  first_end (ln :: lines) (S i1) →
  startswith ln "#/COVARDATA" = false ∧ first_end lines i1.
Proof.
  intros [[l [Hl He]] Hb]. split.
  - apply (Hb 0 ln); [lia|done].
  - split; [by exists l|]. intros k l' Hk Hl'. apply (Hb (S k) l'); [lia|done].
Qed.

Lemma locate_no_start lines i acc i1 :
  first_end lines i1 →
  (∀ k ln, k < i1 → lines !! k = Some ln → startswith ln "#COVARDATA" = false) →
  locate i lines acc = (acc, Some (i + i1)).
Proof.
  revert i acc i1. induction lines as [|ln lines IH]; intros i acc i1 Hf Hs.
  - destruct Hf as [[l [Hl _]] _]. done.
  - destruct i1 as [|i1].
    + destruct Hf as [[l [[= <-] He]] _]. simpl.
      rewrite He, (end_not_start _ He). by rewrite Nat.add_0_r.
    + apply first_end_cons in Hf as [Hne Hf]. simpl.
      rewrite Hne, (Hs 0 ln) by (done || lia).
      rewrite (IH (S i) acc i1 Hf).
      * f_equal. f_equal. lia.
      * intros k l Hk Hl. apply (Hs (S k) l); [lia|done].
Qed.

Lemma locate_found lines i acc i0 i1 :
  first_end lines i1 → last_start_before lines i1 i0 →
  locate i lines acc = (Some (i + i0), Some (i + i1)).
Proof.
  revert i acc i0 i1. induction lines as [|ln lines IH]; intros i acc i0 i1 Hf Hs.
  - destruct Hf as [[l [Hl _]] _]. done.
  - destruct Hs as (Hlt & [l0 [Hl0 Hst]] & Hno).
    destruct i1 as [|i1]; [lia|].
    apply first_end_cons in Hf as [Hne Hf]. simpl. rewrite Hne.
    destruct i0 as [|i0].
    + injection Hl0 as ->. rewrite Hst.
      rewrite (locate_no_start lines (S i) (Some i) i1 Hf).
      * f_equal; f_equal; lia.
      * intros k l Hk Hl. apply (Hno (S k) l); [lia|done].
    + rewrite (IH (S i) _ i0 i1 Hf).
      * f_equal; f_equal; lia.
      * split; [lia|]. split; [by exists l0|].
        intros k l Hk Hl. apply (Hno (S k) l); [lia|done].
Qed.

(** The block that the source cuts out of the lines. *)
Lemma block_lines_found lines i0 i1 :
  first_end lines i1 → last_start_before lines i1 i0 →
  block_lines lines = Some (take (i1 - (i0 + 1)) (drop (i0 + 1) lines)).
Proof.
  intros Hf Hs. unfold block_lines.
  rewrite (locate_found lines 0 None i0 i1 Hf Hs). simpl.
  destruct Hs as [Hlt _]. destruct (i1 <=? i0)%nat eqn:E; [|done].
  apply Nat.leb_le in E. lia.
Qed.

Lemma block_lines_no_end lines :
  (∀ ln, ln ∈ lines → startswith ln "#/COVARDATA" = false) →
  block_lines lines = None.
Proof.
  intros H. unfold block_lines.
  pose proof (locate_no_end lines 0 None H) as E.
  destruct (locate 0 lines None) as [[?|] ?]; simpl in E; by subst.
Qed.

Lemma block_lines_no_start lines i1 :
  first_end lines i1 →
  (∀ k ln, k < i1 → lines !! k = Some ln → startswith ln "#COVARDATA" = false) →
  block_lines lines = None.
Proof.
  intros Hf Hs. unfold block_lines. by rewrite (locate_no_start lines 0 None i1 Hf Hs).
Qed.

End LocateFacts.

Section RowFacts.

Import Py.

Variable parse_float : string → option float.

Lemma split_unfold c s :
  split (String c s)
  = if is_space c then split s
    else match s with
         | EmptyString => [String c EmptyString]
         | String d _ =>
             if is_space d then String c EmptyString :: split s
             else match split s with
                  | t :: ts => String c t :: ts
                  | [] => [String c EmptyString]
                  end
         end.
Proof. reflexivity. Qed.

Lemma rstrip_unfold c s :
  rstrip (String c s)
  = if is_space c && is_empty (rstrip s) then EmptyString
    else String c (rstrip s).
Proof. reflexivity. Qed.

(** White space at the end of a text adds no token. *)
Lemma split_rstrip s : split (rstrip s) = split s.
Proof.
  induction s as [|c s IH]; [done|].
  rewrite rstrip_unfold. destruct (is_space c) eqn:Hc; simpl andb.
  - destruct (is_empty (rstrip s)) eqn:He.
    + apply is_empty_true in He. rewrite split_unfold, Hc, <- IH, He. done.
    + rewrite !split_unfold, Hc. done.
  - rewrite !split_unfold, Hc, IH.
    destruct s as [|d s']; [done|].
    rewrite rstrip_unfold in *.
    destruct (is_space d) eqn:Hd; simpl andb in *.
    + destruct (is_empty (rstrip s')); cbv iota in *; [|by rewrite Hd].
      by rewrite <- IH.
    + cbv iota in *. by rewrite Hd.
Qed.

Lemma split_strip s : split (strip s) = split s.
Proof. unfold strip. by rewrite split_rstrip, split_lstrip. Qed.

Lemma corr_vals_omap toks : corr_vals parse_float toks = omap parse_float toks.
Proof.
  unfold corr_vals.
  enough (H : ∀ acc,
    foldl (λ acc t, match parse_float t with
                    | Some v => acc ++ [v]
                    | None => acc
                    end) acc toks = acc ++ omap parse_float toks) by apply (H []).
  induction toks as [|t toks IH]; intros acc; simpl.
  - by rewrite app_nil_r.
  - rewrite IH. destruct (parse_float t); [|done]. by rewrite <- app_assoc.
Qed.

Lemma parse_rows_omap block :
  parse_rows parse_float block = omap (parse_row parse_float) block.
Proof.
  unfold parse_rows.
  enough (H : ∀ acc,
    foldl (λ acc ln, match parse_row parse_float ln with
                     | Some p => acc ++ [p]
                     | None => acc
                     end) acc block = acc ++ omap (parse_row parse_float) block)
    by apply (H []).
  induction block as [|ln block IH]; intros acc; simpl.
  - by rewrite app_nil_r.
  - rewrite IH. destruct (parse_row parse_float ln); [|done].
    by rewrite <- app_assoc.
Qed.

(** C9: a line with fewer than four tokens gives no point; a line one of
    whose first four tokens is not a float gives no point; a data line whose
    first four tokens are floats gives a point whose correlation list holds,
    in their order, the floats of the remaining tokens, the other tokens
    being dropped one by one; and the rows of a block are the points of its
    lines, each line read on its own. *)
Theorem C9_row_parsing :
  (∀ ln, length (split ln) < 4 → parse_row parse_float ln = None)
  ∧ (∀ ln t0 t1 t2 t3 rest,
       split ln = t0 :: t1 :: t2 :: t3 :: rest →
       parse_float t0 = None ∨ parse_float t1 = None
       ∨ parse_float t2 = None ∨ parse_float t3 = None →
       parse_row parse_float ln = None)
  ∧ (∀ ln t0 t1 t2 t3 rest e_min e_max y sp,
       startswith ln "#" = false →
       split ln = t0 :: t1 :: t2 :: t3 :: rest →
       parse_float t0 = Some e_min → parse_float t1 = Some e_max →
       parse_float t2 = Some y → parse_float t3 = Some sp →
       parse_row parse_float ln
       = Some (Point e_min e_max y sp (omap parse_float rest)))
  ∧ (∀ block,
       parse_rows parse_float block = omap (parse_row parse_float) block).
Proof.
  split; [|split; [|split]].
  - intros ln Hlen. unfold parse_row.
    destruct (is_empty (strip ln) || startswith ln "#"); [done|].
    rewrite split_strip.
    destruct (split ln) as [|? [|? [|? [|? ?]]]]; simpl in Hlen; try done; lia.
  - intros ln t0 t1 t2 t3 rest Hsp Hnone. unfold parse_row.
    destruct (is_empty (strip ln) || startswith ln "#"); [done|].
    rewrite split_strip, Hsp.
    destruct (parse_float t0), (parse_float t1), (parse_float t2),
      (parse_float t3); try done.
    by destruct Hnone as [?|[?|[?|?]]].
  - intros ln t0 t1 t2 t3 rest e_min e_max y sp Hh Hsp H0 H1 H2 H3.
    unfold parse_row. rewrite Hh.
    destruct (is_empty (strip ln)) eqn:He.
    + apply is_empty_true, strip_empty_split in He. congruence.
    + simpl orb. cbv iota. rewrite split_strip, Hsp, H0, H1, H2, H3.
      by rewrite corr_vals_omap.
  - apply parse_rows_omap.
Qed.

End RowFacts.

Lemma C9_row_parsing_witness :
  parse_row py_float "1.0 2.0" = None
  ∧ parse_row py_float "1.0 x 20.0 8.0 50" = None
  ∧ parse_row py_float " 1.0 2.0 20.0 8.0 50 n/a 100 "
    = Some (Point 1 2 20 8 [50; 100]%float).
Proof.
  split; [|split].
  - apply (proj1 (C9_row_parsing py_float)). vm_compute. lia.
  - apply (proj1 (proj2 (C9_row_parsing py_float)) _ "1.0" "x" "20.0" "8.0" ["50"]).
    + reflexivity.
    + right. left. reflexivity.
  - apply (proj1 (proj2 (proj2 (C9_row_parsing py_float)))
             _ "1.0" "2.0" "20.0" "8.0" ["50"; "n/a"; "100"]); reflexivity.
Defined.

(** ** Loops *)

Section LoopFacts.

Context {A St : Type}.

(** A loop whose body returns and keeps an invariant returns, and the
    invariant holds at the end. *)
Lemma for_enum_inv (Inv : nat → St → Prop) (body : nat → A → St → outcome St)
    (l : list A) (start : nat) (s : St) :
  Inv start s →
  (∀ k x s, l !! k = Some x → Inv (start + k) s →
            ∃ s', body (start + k) x s = Returns s' ∧ Inv (S (start + k)) s') →
  ∃ s', for_enum body start l s = Returns s' ∧ Inv (start + length l) s'.
Proof.
  revert start s. induction l as [|x l IH]; intros start s H0 Hstep.
  - exists s. simpl. by rewrite Nat.add_0_r.
  - destruct (Hstep 0 x s eq_refl) as (s1 & Hb & H1).
    { by rewrite Nat.add_0_r. }
    rewrite Nat.add_0_r in Hb, H1.
    destruct (IH (S start) s1 H1) as (s' & Hr & H').
    { intros k y t Hk Ht.
      replace (S start + k) with (start + S k) in * by lia.
      by apply Hstep. }
    exists s'. simpl. rewrite Hb. simpl. split; [done|].
    by replace (start + S (length l)) with (S start + length l) by lia.
Qed.

End LoopFacts.

Lemma for_range_inv {St} (Inv : nat → St → Prop) (body : nat → St → outcome St)
    (n : nat) (s : St) :
  Inv 0 s →
  (∀ k s, k < n → Inv k s → ∃ s', body k s = Returns s' ∧ Inv (S k) s') →
  ∃ s', for_range body n s = Returns s' ∧ Inv n s'.
Proof.
  intros H0 Hstep. unfold for_range.
  destruct (for_enum_inv Inv (λ _ i, body i) (seq 0 n) 0 s H0) as (s' & Hr & H').
  - intros k x t Hk Ht. apply lookup_seq in Hk as [-> Hk]. simpl in *.
    by apply Hstep.
  - exists s'. split; [done|]. by rewrite length_seq in H'.
Qed.

(** ** Matrices *)

Section MatrixFacts.

Lemma bind_Returns {A B} (a : A) (k : A → outcome B) : (Returns a ≫= k) = k a.
Proof. reflexivity. Qed.

Lemma cell_is_Some n m i j :
  square n m → i < n → j < n → is_Some (cell m i j).
Proof.
  intros [Hl Hr] Hi Hj. unfold cell.
  destruct (lookup_lt_is_Some_2 m i) as [r Hm]; [lia|].
  rewrite Hm. simpl. apply lookup_lt_is_Some_2. rewrite (Hr i r Hm). lia.
Qed.

Lemma get_cell_Returns m i j v : cell m i j = Some v → get_cell m i j = Returns v.
Proof.
  unfold cell, get_cell, get_item. destruct (m !! i) as [r|]; [|done].
  simpl. by intros ->.
Qed.

Lemma get_item_Returns {A} (l : list A) i x : l !! i = Some x → get_item l i = Returns x.
Proof. unfold get_item. by intros ->. Qed.

(** [m[i][j] = v] inside the matrix: it returns, and changes that entry
    only. *)
Lemma set_cell_spec n m i j v :
  square n m → i < n → j < n →
  ∃ m', set_cell m i j v = Returns m' ∧ square n m' ∧
        ∀ a b, cell m' a b = if decide (a = i ∧ b = j) then Some v else cell m a b.
Proof.
  intros [Hl Hr] Hi Hj. unfold set_cell, get_item, set_item.
  destruct (lookup_lt_is_Some_2 m i) as [r Hm]; [lia|].
  rewrite Hm, bind_Returns. pose proof (Hr i r Hm) as Hlr.
  assert ((j <? length r)%nat = true) as -> by (apply Nat.ltb_lt; lia).
  rewrite bind_Returns.
  assert ((i <? length m)%nat = true) as -> by (apply Nat.ltb_lt; lia).
  eexists. split; [done|]. split.
  - split; [by rewrite length_insert|].
    intros a ra. rewrite list_lookup_insert. case_decide.
    + intros [= <-]. by rewrite length_insert.
    + apply Hr.
  - intros a b. unfold cell. rewrite list_lookup_insert.
    destruct (decide (i = a ∧ i < length m)) as [[-> _]|Hn].
    + simpl. rewrite list_lookup_insert, Hm. simpl.
      repeat case_decide; try done; try lia; naive_solver.
    + case_decide as E; [|done]. destruct E as [-> ->]. lia.
Qed.

Lemma zeros_spec n :
  square n (zeros n) ∧ ∀ a b, a < n → b < n → cell (zeros n) a b = Some 0%float.
Proof.
  unfold zeros. split.
  - split; [apply length_replicate|].
    intros i r [-> _]%lookup_replicate. apply length_replicate.
  - intros a b Ha Hb. unfold cell.
    rewrite lookup_replicate_2 by done. simpl. by rewrite lookup_replicate_2.
Qed.

Lemma diag_loop_spec n :
  ∃ m, for_range (λ i c, set_cell c i i 1%float) n (zeros n) = Returns m ∧
       square n m ∧
       ∀ a b, a < n → b < n → cell m a b = Some (default_entry a b).
Proof.
  destruct (zeros_spec n) as [Hsq Hz].
  destruct (for_range_inv
    (λ k m, square n m ∧ ∀ a b, a < n → b < n →
       cell m a b = Some (if decide (a = b ∧ a < k) then 1%float else 0%float))
    (λ i c, set_cell c i i 1%float) n (zeros n)) as (m & Hr & Hm & Hc).
  - split; [done|]. intros a b Ha Hb. rewrite Hz by done.
    case_decide; [lia|done].
  - intros k m Hk [Hm Hc].
    destruct (set_cell_spec n m k k 1%float Hm Hk Hk) as (m' & -> & Hm' & Hc').
    exists m'. split; [done|]. split; [done|].
    intros a b Ha Hb. rewrite Hc', Hc by done.
    repeat case_decide; try done; lia.
  - exists m. split; [done|]. split; [done|].
    intros a b Ha Hb. rewrite Hc by done. unfold default_entry.
    repeat case_decide; try done; lia.
Qed.

Lemma corr_row_spec n rows k r m :
  length rows = n → rows !! k = Some r →
  square n m ∧ (∀ a b, a < n → b < n →
     cell m a b = Some (if decide (a `max` b < k) then corr_entry rows a b
                        else default_entry a b)) →
  ∃ m', corr_row_body k r m = Returns m' ∧
    square n m' ∧ (∀ a b, a < n → b < n →
     cell m' a b = Some (if decide (a `max` b < S k) then corr_entry rows a b
                         else default_entry a b)).
Proof.
  intros Hn Hk [Hm Hc]. unfold corr_row_body.
  assert (Hkn : k < n) by (rewrite <- Hn; by eapply lookup_lt_Some).
  set (vals := row_corr_list r).
  destruct (for_enum_inv
    (λ j m, square n m ∧ ∀ a b, a < n → b < n →
       cell m a b
       = Some (if decide (a `max` b < k) then corr_entry rows a b
               else if decide (a `max` b = k ∧ a `min` b < j)
                    then match vals !! (a `min` b) with
                         | Some v => (v / 100)%float
                         | None => default_entry a b
                         end
                    else default_entry a b))
    (corr_cell_body k) vals 0 m) as (m' & Hr & Hm' & Hc').
  - split; [done|]. intros a b Ha Hb. rewrite Hc by done.
    repeat case_decide; try done; lia.
  - intros j v t Hj [Ht Hct]. simpl in *. unfold corr_cell_body.
    destruct (k <? j)%nat eqn:E.
    + apply Nat.ltb_lt in E. exists t. split; [done|]. split; [done|].
      intros a b Ha Hb. rewrite Hct by done.
      repeat case_decide; try done; lia.
    + apply Nat.ltb_ge in E.
      destruct (set_cell_spec n t k j (v / 100)%float Ht) as (t1 & -> & Ht1 & Hc1);
        [lia..|].
      rewrite bind_Returns.
      destruct (set_cell_spec n t1 j k (v / 100)%float Ht1) as (t2 & -> & Ht2 & Hc2);
        [lia..|].
      exists t2. split; [done|]. split; [done|].
      intros a b Ha Hb. rewrite Hc2, Hc1, Hct by done.
      destruct (decide (a = j ∧ b = k)) as [[-> ->]|N1].
      { rewrite Nat.max_r, Nat.min_l by lia. rewrite Hj.
        repeat case_decide; try done; lia. }
      destruct (decide (a = k ∧ b = j)) as [[-> ->]|N2].
      { rewrite Nat.max_l, Nat.min_r by lia. rewrite Hj.
        repeat case_decide; try done; lia. }
      repeat case_decide; try done; lia.
  - exists m'. split; [done|]. split; [done|].
    intros a b Ha Hb. rewrite Hc' by done. simpl.
    destruct (decide (a `max` b < k)) as [L|L].
    { rewrite decide_True by lia. done. }
    destruct (decide (a `max` b = k)) as [Ek|Ek].
    + rewrite (decide_True (P := a `max` b < S k)) by lia.
      unfold corr_entry. rewrite Ek, Hk. simpl. fold vals.
      case_decide as D.
      * done.
      * assert (vals !! (a `min` b) = None) as ->; [|done].
        apply lookup_ge_None. lia.
    + rewrite decide_False by lia. rewrite (decide_False (P := a `max` b < S k)) by lia.
      done.
Qed.

(** The correlation matrix is built without an index error, and its
    entries are the ones that [corr_entry] reads off the rows. *)
Lemma build_corr_spec rows :
  ∃ c, build_corr rows = Returns c ∧ square (length rows) c ∧
       ∀ a b, a < length rows → b < length rows →
              cell c a b = Some (corr_entry rows a b).
Proof.
  unfold build_corr. set (n := length rows).
  destruct (diag_loop_spec n) as (m0 & -> & Hm0 & Hc0). rewrite bind_Returns.
  destruct (for_enum_inv
    (λ i m, square n m ∧ ∀ a b, a < n → b < n →
       cell m a b = Some (if decide (a `max` b < i) then corr_entry rows a b
                          else default_entry a b))
    corr_row_body rows 0 m0) as (c & Hr & Hc & Hcc).
  - split; [done|]. intros a b Ha Hb. rewrite Hc0 by done.
    case_decide; [lia|done].
  - intros k r m Hk Hm. simpl in *. by apply (corr_row_spec n rows).
  - exists c. split; [done|]. split; [done|].
    intros a b Ha Hb. rewrite Hcc by done. simpl. fold n.
    rewrite decide_True by lia. done.
Qed.

(** The covariance matrix is built without an index error, and holds the
    products of the source. *)
Lemma build_cov_spec n c sg :
  square n c → length sg = n →
  ∃ cv, build_cov n c sg = Returns cv ∧ square n cv ∧
        ∀ a b, a < n → b < n →
          ∃ cab sa sb, cell c a b = Some cab ∧ sg !! a = Some sa ∧ sg !! b = Some sb ∧
                       cell cv a b = Some (cab * sa * sb)%float.
Proof.
  intros Hc Hsg. unfold build_cov.
  set (val := λ a b, match cell c a b, sg !! a, sg !! b with
                     | Some x, Some y, Some z => (x * y * z)%float
                     | _, _, _ => 0%float
                     end).
  destruct (zeros_spec n) as [Hz _].
  destruct (for_range_inv
    (λ i cv, square n cv ∧ ∀ a b, a < n → b < n → a < i →
                             cell cv a b = Some (val a b))
    (λ i cv, for_range (cov_cell_body c sg i) n cv) n (zeros n))
    as (cv & Hr & Hcv & Hcc).
  - split; [done|]. intros; lia.
  - intros i m Hi [Hm Hmc].
    destruct (for_range_inv
      (λ j cv, square n cv ∧ ∀ a b, a < n → b < n → a < i ∨ (a = i ∧ b < j) →
                               cell cv a b = Some (val a b))
      (cov_cell_body c sg i) n m) as (m' & Hr' & Hm' & Hmc').
    + split; [done|]. intros a b Ha Hb [L|[_ L]]; [by apply Hmc|lia].
    + intros j t Hj [Ht Htc]. unfold cov_cell_body.
      destruct (cell_is_Some n c i j Hc Hi Hj) as [x Hx].
      destruct (lookup_lt_is_Some_2 sg i) as [si Hsi]; [lia|].
      destruct (lookup_lt_is_Some_2 sg j) as [sj Hsj]; [lia|].
      rewrite (get_cell_Returns _ _ _ _ Hx), bind_Returns.
      rewrite (get_item_Returns _ _ _ Hsi), bind_Returns.
      rewrite (get_item_Returns _ _ _ Hsj), bind_Returns.
      destruct (set_cell_spec n t i j (x * si * sj)%float Ht Hi Hj)
        as (t' & -> & Ht' & Hc').
      exists t'. split; [done|]. split; [done|].
      intros a b Ha Hb Hab. rewrite Hc'. case_decide as E.
      * destruct E as [-> ->]. unfold val. by rewrite Hx, Hsi, Hsj.
      * apply Htc; [done..|]. lia.
    + exists m'. split; [done|]. split; [done|].
      intros a b Ha Hb L. apply Hmc'; [done..|]. lia.
  - exists cv. split; [done|]. split; [done|].
    intros a b Ha Hb.
    destruct (cell_is_Some n c a b Hc Ha Hb) as [x Hx].
    destruct (lookup_lt_is_Some_2 sg a) as [sa Hsa]; [lia|].
    destruct (lookup_lt_is_Some_2 sg b) as [sb Hsb]; [lia|].
    exists x, sa, sb. repeat split; [done..|].
    rewrite Hcc by done. unfold val. by rewrite Hx, Hsa, Hsb.
Qed.

Lemma build_sigma_lookup rows i :
  build_sigma rows !! i
  = (λ r, (row_std_pct r / 100 * row_y r)%float) <$> rows !! i.
Proof.
  unfold build_sigma. rewrite lookup_zip_with, !list_lookup_fmap.
  by destruct (rows !! i).
Qed.

Lemma build_sigma_length rows : length (build_sigma rows) = length rows.
Proof.
  unfold build_sigma. rewrite length_zip_with, !length_fmap. lia.
Qed.

(** What [reconstruct] returns for at least one row. *)
Lemma reconstruct_spec rows :
  rows ≠ [] →
  ∃ c cv,
    reconstruct rows
    = Returns (Some (Covariance (row_E_min <$> rows) (row_E_max <$> rows)
                                (row_y <$> rows) (row_std_pct <$> rows)
                                (build_sigma rows) c cv)) ∧
    build_corr rows = Returns c ∧
    square (length rows) c ∧ square (length rows) cv ∧
    (∀ a b, a < length rows → b < length rows →
            cell c a b = Some (corr_entry rows a b)) ∧
    (∀ a b, a < length rows → b < length rows →
       ∃ cab sa sb, cell c a b = Some cab ∧ build_sigma rows !! a = Some sa ∧
                    build_sigma rows !! b = Some sb ∧
                    cell cv a b = Some (cab * sa * sb)%float).
Proof.
  intros Hne. unfold reconstruct.
  assert ((length rows =? 0)%nat = false) as ->.
  { apply Nat.eqb_neq. by destruct rows. }
  destruct (build_corr_spec rows) as (c & Hc & Hsq & Hcc). rewrite Hc, bind_Returns.
  destruct (build_cov_spec (length rows) c (build_sigma rows) Hsq
              (build_sigma_length rows)) as (cv & -> & Hsqv & Hcv).
  rewrite bind_Returns. exists c, cv. done.
Qed.

Lemma reconstruct_nil : reconstruct [] = Returns None.
Proof. reflexivity. Qed.

Lemma corr_entry_sym rows a b : corr_entry rows a b = corr_entry rows b a.
Proof.
  unfold corr_entry, default_entry.
  rewrite (Nat.max_comm b a), (Nat.min_comm b a).
  destruct (rows !! (a `max` b) ≫= _); [done|].
  repeat case_decide; congruence.
Qed.

Lemma corr_entry_truncate rows a b :
  corr_entry (truncate rows) a b = corr_entry rows a b.
Proof.
  unfold corr_entry, truncate. rewrite list_lookup_imap.
  destruct (rows !! (a `max` b)) as [r|]; [|done]. simpl.
  rewrite lookup_take_lt by lia. done.
Qed.

(** Square matrices with the same entries are equal. *)
Lemma matrix_ext n (m1 m2 : matrix) :
  square n m1 → square n m2 →
  (∀ a b, a < n → b < n → cell m1 a b = cell m2 a b) → m1 = m2.
Proof.
  intros [L1 R1] [L2 R2] H. apply list_eq. intros a.
  destruct (decide (a < n)) as [Ha|Ha].
  - destruct (lookup_lt_is_Some_2 m1 a) as [r1 H1]; [lia|].
    destruct (lookup_lt_is_Some_2 m2 a) as [r2 H2]; [lia|].
    rewrite H1, H2. f_equal. apply list_eq. intros b.
    destruct (decide (b < n)) as [Hb|Hb].
    + specialize (H a b Ha Hb). unfold cell in H. by rewrite H1, H2 in H.
    + rewrite !lookup_ge_None_2; [done|rewrite (R2 a r2 H2)|rewrite (R1 a r1 H1)]; lia.
  - rewrite !lookup_ge_None_2; [done|lia..].
Qed.

End MatrixFacts.

(** ** The covariance parser *)

Section CovarianceFacts.

Import Py.

Variable parse_float : string → option float.

Lemma parse_covariance_found text block :
  block_lines (splitlines text) = Some block →
  _parse_c5m_covariance parse_float text = reconstruct (parse_rows parse_float block).
Proof. intros H. unfold _parse_c5m_covariance. by rewrite H. Qed.

Lemma parse_covariance_not_found text :
  block_lines (splitlines text) = None →
  _parse_c5m_covariance parse_float text = Returns None.
Proof. intros H. unfold _parse_c5m_covariance. by rewrite H. Qed.

(** The parse returns; it returns a dict with matrices exactly when the
    block is found and holds a row. *)
Lemma parse_covariance_cases text :
  (_parse_c5m_covariance parse_float text = Returns None ∧
   ∀ block, block_lines (splitlines text) = Some block →
            parse_rows parse_float block = [])
  ∨ ∃ block c cv,
      block_lines (splitlines text) = Some block ∧
      let rows := parse_rows parse_float block in
      rows ≠ [] ∧
      _parse_c5m_covariance parse_float text
      = Returns (Some (Covariance (row_E_min <$> rows) (row_E_max <$> rows)
                                  (row_y <$> rows) (row_std_pct <$> rows)
                                  (build_sigma rows) c cv)) ∧
      build_corr rows = Returns c ∧
      square (length rows) c ∧ square (length rows) cv ∧
      (∀ a b, a < length rows → b < length rows →
              cell c a b = Some (corr_entry rows a b)) ∧
      (∀ a b, a < length rows → b < length rows →
         ∃ cab sa sb, cell c a b = Some cab ∧ build_sigma rows !! a = Some sa ∧
                      build_sigma rows !! b = Some sb ∧
                      cell cv a b = Some (cab * sa * sb)%float).
Proof.
  destruct (block_lines (splitlines text)) as [block|] eqn:Hb.
  - destruct (parse_rows parse_float block) as [|p ps] eqn:Hrows.
    + left. rewrite (parse_covariance_found _ _ Hb), Hrows.
      split; [done|]. by intros ? [= <-].
    + right. destruct (reconstruct_spec (p :: ps)) as (c & cv & H); [done|].
      exists block, c, cv. split; [done|]. simpl. rewrite Hrows.
      split; [done|]. by rewrite (parse_covariance_found _ _ Hb), Hrows.
  - left. split; [by apply parse_covariance_not_found|]. intros; done.
Qed.

(** C1, as the source has it: for every text whose block is located and
    holds at least one point, the parse returns a dict whose correlation
    matrix has as many rows and columns as there are points; the entries
    (i,j) and (j,i) hold the same float, which compares equal to itself
    under the floats' own comparison unless it is a NaN; and the diagonal
    entry of point i is 1.0 unless the row of point i lists a value at
    position i, which then is that entry, in percent. *)
Theorem C1_corr_square_symmetric_diag (text : string) (block : list string) :
  block_lines (splitlines text) = Some block →
  parse_rows parse_float block ≠ [] →
  ∃ c, _parse_c5m_covariance parse_float text = Returns (Some c) ∧
    length (data c) = length (parse_rows parse_float block) ∧
    square (length (parse_rows parse_float block)) (corr c) ∧
    (∀ i j, i < length (parse_rows parse_float block) →
            j < length (parse_rows parse_float block) →
       ∃ x y, cell (corr c) i j = Some x ∧ cell (corr c) j i = Some y ∧
              x = y ∧ PrimFloat.eqb x y = negb (PrimFloat.is_nan x)) ∧
    (∀ i row, parse_rows parse_float block !! i = Some row →
              row_corr_list row !! i = None →
       cell (corr c) i i = Some 1%float) ∧
    (∀ i row v, parse_rows parse_float block !! i = Some row →
                row_corr_list row !! i = Some v →
       cell (corr c) i i = Some (v / 100)%float).
Proof.
  intros Hb Hne.
  destruct (parse_covariance_cases text)
    as [[_ Hnil] | (block' & c & cv & Hb' & _ & Hr & _ & Hsq & _ & Hcc & _)].
  - by specialize (Hnil block Hb).
  - rewrite Hb in Hb'. injection Hb' as <-. simpl in *.
    set (rows := parse_rows parse_float block) in *.
    eexists. split; [exact Hr|]. simpl.
    split; [by rewrite length_fmap|]. split; [done|].
    assert (Hdiag : ∀ i row, rows !! i = Some row →
              cell c i i = Some (match row_corr_list row !! i with
                                 | Some v => (v / 100)%float
                                 | None => 1%float
                                 end)).
    { intros i row Hi. pose proof (lookup_lt_Some _ _ _ Hi) as Hlt.
      rewrite Hcc by done. unfold corr_entry, default_entry.
      rewrite Nat.max_id, Nat.min_id, Hi. simpl.
      destruct (row_corr_list row !! i); [done|]. by rewrite decide_True. }
    split; [|split].
    + intros i j Hi Hj. exists (corr_entry rows i j), (corr_entry rows i j).
      rewrite !Hcc by done. rewrite (corr_entry_sym rows j i).
      split; [done|]. split; [done|]. split; [done|].
      unfold PrimFloat.is_nan. by rewrite negb_involutive.
    + intros i row Hi Hn. by rewrite (Hdiag i row Hi), Hn.
    + intros i row v Hi Hv. by rewrite (Hdiag i row Hi), Hv.
Qed.

(** C3: the token at position j of row i, for j no greater than i, is the
    correlation of points i and j in percent: a hundredth of it stands at
    (i,j) and at (j,i); the positions beyond i are not read, the matrix
    being the one of the rows cut after their position i; and this matrix is
    the one a returned dict holds. *)
Theorem C3_triangular_fill (rows : list point) :
  ∃ c, build_corr rows = Returns c ∧
    (∀ (i : nat) row (j : nat) v,
       rows !! i = Some row → row_corr_list row !! j = Some v → (j ≤ i)%nat →
       cell c i j = Some (v / 100)%float ∧ cell c j i = Some (v / 100)%float) ∧
    build_corr (truncate rows) = Returns c ∧
    (∀ d, reconstruct rows = Returns (Some d) → corr d = c).
Proof.
  destruct (build_corr_spec rows) as (c & Hc & Hsq & Hcc).
  exists c. split; [done|]. split; [|split].
  - intros i row j v Hi Hj Hle. pose proof (lookup_lt_Some _ _ _ Hi) as Hlt.
    assert (He : corr_entry rows i j = (v / 100)%float).
    { unfold corr_entry. rewrite Nat.max_l, Nat.min_r by lia.
      rewrite Hi. simpl. by rewrite Hj. }
    rewrite !Hcc by lia. by rewrite (corr_entry_sym rows j i), He.
  - destruct (build_corr_spec (truncate rows)) as (c' & Hc' & Hsq' & Hcc').
    rewrite Hc'. f_equal.
    assert (Hlen : length (truncate rows) = length rows)
      by (unfold truncate; apply length_imap).
    rewrite Hlen in *. apply (matrix_ext (length rows)); [done..|].
    intros a b Ha Hb. by rewrite Hcc, Hcc', corr_entry_truncate.
  - intros d Hd. destruct rows as [|p ps]; [done|].
    destruct (reconstruct_spec (p :: ps)) as (c' & cv & Hr & Hc' & _); [done|].
    rewrite Hr in Hd. injection Hd as <-. simpl. congruence.
Qed.

End CovarianceFacts.

Lemma C1_corr_square_symmetric_diag_witness :
  ∃ c, _parse_c5m_covariance py_float sample_c5m = Returns (Some c) ∧
    length (data c) = length (parse_rows py_float [row0; row1]) ∧
    square (length (parse_rows py_float [row0; row1])) (corr c) ∧
    (∀ i j, i < length (parse_rows py_float [row0; row1]) →
            j < length (parse_rows py_float [row0; row1]) →
       ∃ x y, cell (corr c) i j = Some x ∧ cell (corr c) j i = Some y ∧
              x = y ∧ PrimFloat.eqb x y = negb (PrimFloat.is_nan x)) ∧
    (∀ i row, parse_rows py_float [row0; row1] !! i = Some row →
              row_corr_list row !! i = None →
       cell (corr c) i i = Some 1%float) ∧
    (∀ i row v, parse_rows py_float [row0; row1] !! i = Some row →
                row_corr_list row !! i = Some v →
       cell (corr c) i i = Some (v / 100)%float).
Proof.
  apply (C1_corr_square_symmetric_diag py_float sample_c5m [row0; row1]).
  - reflexivity.
  - vm_compute. discriminate.
Defined.

(** C1 as worded fails: a row that lists nan as a correlation gives the
    entries (0,1) and (1,0) the same NaN, which the floats' comparison
    finds unequal. *)
Lemma C1_counterexample :
  ∃ c x y,
    _parse_c5m_covariance py_float_nan nan_c5m = Returns (Some c) ∧
    cell (corr c) 0 1 = Some x ∧ cell (corr c) 1 0 = Some y ∧
    PrimFloat.eqb x y = false.
Proof.
  eexists _, _, _. split; [vm_compute; reflexivity|].
  split; [vm_compute; reflexivity|]. split; [vm_compute; reflexivity|].
  by vm_compute.
Qed.

Lemma C3_triangular_fill_witness :
  ∃ c, build_corr [Point 0 1 10 5 [100; 7]%float; Point 1 2 20 8 [50]%float] = Returns c ∧
       cell c 1 0 = Some 0.5%float ∧ cell c 0 1 = Some 0.5%float ∧
       build_corr [Point 0 1 10 5 [100]%float; Point 1 2 20 8 [50]%float] = Returns c.
Proof.
  destruct (C3_triangular_fill [Point 0 1 10 5 [100; 7]%float; Point 1 2 20 8 [50]%float])
    as (c & Hc & Hfill & Htr & _).
  exists c. split; [exact Hc|].
  destruct (Hfill 1 (Point 1 2 20 8 [50]%float) 0 50%float eq_refl eq_refl (le_S _ _ (le_n 0)))
    as [H1 H2].
  split; [exact H1|]. split; [exact H2|exact Htr].
Defined.

(** C2: in a returned dict sigma is, point by point, the hundredth of
    std_pct times the value, and each entry of cov is the entry of corr
    times the two sigmas, multiplied in this order; the sample block gives
    two points, sigma 0.5 and 1.6, the correlation matrix with 0.5 off the
    diagonal, and 0.4 for cov[0][1]. *)
Theorem C2_sigma_and_cov (parse_float : string → option float) :
  (∀ text, ∃ r, _parse_c5m_covariance parse_float text = Returns r ∧
     ∀ c, r = Some c →
       let n := length (data c) in
       n ≠ 0 ∧ length (std_pct c) = n ∧ length (sigma c) = n ∧
       square n (corr c) ∧ square n (cov c) ∧
       (∀ i sp y, std_pct c !! i = Some sp → data c !! i = Some y →
          sigma c !! i = Some (sp / 100 * y)%float) ∧
       (∀ i j, i < n → j < n →
          ∃ cij si sj, cell (corr c) i j = Some cij ∧ sigma c !! i = Some si ∧
                       sigma c !! j = Some sj ∧
                       cell (cov c) i j = Some (cij * si * sj)%float))
  ∧ (∀ text, block_lines (Py.splitlines text) = Some [row0; row1] →
       ∃ c, _parse_c5m_covariance py_float text = Returns (Some c) ∧
            length (data c) = 2 ∧ sigma c = [0.5; 1.6]%float ∧
            corr c = [[1; 0.5]; [0.5; 1]]%float ∧
            cell (cov c) 0 1 = Some 0.4%float).
Proof.
  split.
  - intros text.
    destruct (parse_covariance_cases parse_float text)
      as [[-> _] | (block & c & cv & Hb & Hne & -> & _ & Hsq & Hsqv & _ & Hcv)].
    + exists None. split; [done|]. intros c [=].
    + eexists. split; [done|]. intros c' [= <-]. simpl.
      set (rows := parse_rows parse_float block) in *.
      rewrite !length_fmap, build_sigma_length.
      split; [by destruct rows|]. do 4 (split; [done|]). split.
      * intros i sp y. rewrite !list_lookup_fmap, build_sigma_lookup.
        destruct (rows !! i) as [r|]; [|done]. simpl. by intros [= <-] [= <-].
      * apply Hcv.
  - intros text Hb. rewrite (parse_covariance_found _ _ _ Hb).
    eexists. split; [vm_compute; reflexivity|]. simpl. by vm_compute.
Qed.

Lemma C2_sigma_and_cov_witness :
  ∃ c, _parse_c5m_covariance py_float sample_c5m = Returns (Some c) ∧
       length (data c) = 2 ∧ sigma c = [0.5; 1.6]%float ∧
       corr c = [[1; 0.5]; [0.5; 1]]%float ∧
       cell (cov c) 0 1 = Some 0.4%float.
Proof. apply (proj2 (C2_sigma_and_cov py_float) sample_c5m). reflexivity. Defined.

(** C4, as the source has it: the block runs from the last line that
    starts with the start marker before the first line that starts with the
    end marker, to that line; a text with no end marker line, with no start
    marker line, or with no start marker line before its first end marker
    line gives the empty result; and the parse never raises. *)
Theorem C4_block_location (parse_float : string → option float) (text : string) :
  let lines := Py.splitlines text in
  (∃ r, _parse_c5m_covariance parse_float text = Returns r)
  ∧ (∀ i0 i1, first_end lines i1 → last_start_before lines i1 i0 →
       block_lines lines = Some (take (i1 - (i0 + 1)) (drop (i0 + 1) lines)) ∧
       _parse_c5m_covariance parse_float text
       = reconstruct (parse_rows parse_float
                        (take (i1 - (i0 + 1)) (drop (i0 + 1) lines))))
  ∧ ((∀ ln, ln ∈ lines → Py.startswith ln "#/COVARDATA" = false) →
       _parse_c5m_covariance parse_float text = Returns None)
  ∧ ((∀ ln, ln ∈ lines → Py.startswith ln "#COVARDATA" = false) →
       _parse_c5m_covariance parse_float text = Returns None)
  ∧ (∀ i1, first_end lines i1 →
       (∀ k ln, k < i1 → lines !! k = Some ln →
                Py.startswith ln "#COVARDATA" = false) →
       _parse_c5m_covariance parse_float text = Returns None).
Proof.
  intros lines.
  assert (Hnoend : (∀ ln, ln ∈ lines → Py.startswith ln "#/COVARDATA" = false) →
                   _parse_c5m_covariance parse_float text = Returns None).
  { intros H. by apply parse_covariance_not_found, block_lines_no_end. }
  assert (Hnostart : ∀ i1, first_end lines i1 →
            (∀ k ln, k < i1 → lines !! k = Some ln →
                     Py.startswith ln "#COVARDATA" = false) →
            _parse_c5m_covariance parse_float text = Returns None).
  { intros i1 Hf H. by apply parse_covariance_not_found, (block_lines_no_start _ i1). }
  split; [|split; [|split; [|split]]]; [| |done| |done].
  - destruct (parse_covariance_cases parse_float text)
      as [[-> _] | (block & c & cv & _ & _ & -> & _)]; eauto.
  - intros i0 i1 Hf Hs. pose proof (block_lines_found _ _ _ Hf Hs) as Hb.
    split; [done|]. by apply parse_covariance_found.
  - intros H.
    destruct (list_find (λ ln, Py.startswith ln "#/COVARDATA" = true) lines)
      as [[i1 l]|] eqn:E.
    + apply list_find_Some in E as (Hl & Hp & Hbefore).
      apply (Hnostart i1).
      * split; [by exists l|]. intros k ln Hk Hln.
        specialize (Hbefore k ln Hln Hk). by destruct (Py.startswith ln "#/COVARDATA").
      * intros k ln _ Hln. apply H. by eapply list_elem_of_lookup_2.
    + apply Hnoend. intros ln Hin.
      apply list_find_None in E. rewrite Forall_forall in E.
      specialize (E ln Hin). by destruct (Py.startswith ln "#/COVARDATA").
Qed.

Lemma C4_block_location_witness :
  block_lines (Py.splitlines two_starts) = Some ["5 6 7 8"] ∧
  _parse_c5m_covariance py_float two_starts
  = reconstruct (parse_rows py_float ["5 6 7 8"]).
Proof.
  refine (proj1 (proj2 (C4_block_location py_float two_starts)) 2 4 _ _).
  - split; [by exists "#/COVARDATA"|].
    intros k ln Hk. destruct k as [|[|[|[|k]]]]; try lia; by intros [= <-].
  - split; [lia|]. split; [by exists "#COVARDATA"|].
    intros k ln Hk. destruct k as [|[|[|[|k]]]]; try lia; by intros [= <-].
Defined.

(** C4 as worded fails: with two start marker lines the source begins the
    block at the second one, not at the first; and a text whose first end
    marker line comes before the start marker line gives the empty result,
    though an end marker line follows the start marker line. *)
Lemma C4_counterexample :
  block_lines_spec (Py.splitlines two_starts)
  = Some ["1 2 3 4"; "#COVARDATA"; "5 6 7 8"]
  ∧ block_lines (Py.splitlines two_starts) = Some ["5 6 7 8"]
  ∧ (∃ c, _parse_c5m_covariance py_float two_starts = Returns (Some c)
          ∧ data c = [7%float])
  ∧ (∃ c, reconstruct (parse_rows py_float ["1 2 3 4"; "#COVARDATA"; "5 6 7 8"])
          = Returns (Some c)
          ∧ data c = [3; 7]%float)
  ∧ locate_spec (Py.splitlines end_first) = Some (1, 3)
  ∧ _parse_c5m_covariance py_float end_first = Returns None.
Proof.
  split; [by vm_compute|]. split; [by vm_compute|].
  split; [eexists; split; [vm_compute; reflexivity|done]|].
  split; [eexists; split; [vm_compute; reflexivity|done]|].
  split; by vm_compute.
Qed.

(** ** The column resolver *)

Section ResolverFacts.

Variable set_iter : gset string → list string.

Lemma first_present_None cands present :
  first_present cands present = None ↔ ∀ k, k ∈ cands → k ∉ present.
Proof.
  unfold first_present. induction cands as [|c cands IH]; simpl.
  - split; [|done]. intros _ k Hk. by apply elem_of_nil in Hk.
  - case_bool_decide as Hc.
    + split; [done|]. intros H. destruct (H c); [apply list_elem_of_here|done].
    + rewrite IH. split.
      * intros H k [->|Hk]%elem_of_cons; auto.
      * intros H k Hk. apply H. by apply list_elem_of_further.
Qed.

Lemma first_present_Some cands present k :
  first_present cands present = Some k → k ∈ cands ∧ k ∈ present.
Proof.
  unfold first_present. intros [Hin Hp]%find_some.
  split; [by apply list_elem_of_In|]. by apply bool_decide_eq_true in Hp.
Qed.

(** The fallback loop keeps a header already chosen, and otherwise takes
    the first header it meets that passes the test. *)
Lemma fallback_fold l ek vk :
  foldl fallback_body (ek, vk) l
  = (match ek with Some _ => ek | None => find is_energy_like l end,
     match vk with Some _ => vk | None => find is_value_like l end).
Proof.
  revert ek vk. induction l as [|k l IH]; intros ek vk; simpl.
  - by destruct ek, vk.
  - rewrite IH. destruct ek, vk; simpl; try done;
      destruct (is_energy_like k), (is_value_like k); done.
Qed.

Lemma find_None_iff {A} (f : A → bool) l :
  find f l = None ↔ ∀ x, x ∈ l → f x = false.
Proof.
  split.
  - intros H x Hx. apply (find_none _ _ H). by apply list_elem_of_In.
  - intros H. destruct (find f l) as [x|] eqn:E; [|done].
    apply find_some in E as [Hin Hf]. rewrite H in Hf; [done|].
    by apply list_elem_of_In.
Qed.

Lemma extract_fold ek vk dk rows E Y DY :
  foldl (extract_body ek vk dk) (E, Y, DY) rows
  = (E ++ omap (λ r, numeric (r !! ek)) (filter (row_kept ek vk) rows),
     Y ++ omap (λ r, numeric (r !! vk)) (filter (row_kept ek vk) rows),
     DY ++ ((λ r, numeric (match dk with
                           | Some d => if Py.is_empty d then None else r !! d
                           | None => None
                           end)) <$> filter (row_kept ek vk) rows)).
Proof.
  revert E Y DY. induction rows as [|r rows IH]; intros E Y DY; simpl.
  - by rewrite !app_nil_r.
  - rewrite filter_cons.
    destruct (numeric (r !! ek)) as [e|] eqn:He.
    + destruct (numeric (r !! vk)) as [y|] eqn:Hy.
      * rewrite decide_True by (unfold row_kept; rewrite He, Hy; eauto).
        rewrite IH. simpl. rewrite He, Hy. simpl. by rewrite <- !app_assoc.
      * rewrite decide_False; [apply IH|].
        unfold row_kept. rewrite Hy. by intros [_ [? ?]].
    + rewrite decide_False; [apply IH|].
      unfold row_kept. rewrite He. by intros [[? ?] _].
Qed.

Lemma omap_kept_length {B} (f : record → option B) (P : record → Prop)
    `{∀ r, Decision (P r)} (rows : list record) :
  (∀ r, P r → is_Some (f r)) →
  Some <$> omap f (filter P rows) = f <$> filter P rows.
Proof.
  intros Hf. induction rows as [|r rows IH]; [done|].
  rewrite filter_cons. case_decide as Hp; [|done].
  destruct (Hf r Hp) as [x Hx]. simpl. rewrite Hx. simpl. f_equal. exact IH.
Qed.

#[local] Instance str_le_total : Total Py.str_le.
Proof. intros s t. apply String.leb_total. Qed.

Lemma ascii_compare_lt_trans a b c :
  Ascii.compare a b = Lt → Ascii.compare b c = Lt → Ascii.compare a c = Lt.
Proof.
  unfold Ascii.compare. rewrite !N.compare_lt_iff. apply N.lt_trans.
Qed.

Lemma string_compare_trans s t u :
  String.compare s t ≠ Gt → String.compare t u ≠ Gt → String.compare s u ≠ Gt.
Proof.
  revert t u. induction s as [|a s IH]; intros [|b t] [|c u]; simpl; try done.
  destruct (Ascii.compare a b) eqn:Eab; [| |done].
  - apply Ascii.compare_eq_iff in Eab as ->.
    destruct (Ascii.compare b c); [apply IH|done|done].
  - destruct (Ascii.compare b c) eqn:Ebc; [| |done].
    + apply Ascii.compare_eq_iff in Ebc as ->. by rewrite Eab.
    + by rewrite (ascii_compare_lt_trans a b c).
Qed.

#[local] Instance str_le_trans : Transitive Py.str_le.
Proof.
  intros s t u. unfold Py.str_le, String.leb.
  pose proof (string_compare_trans s t u) as H.
  destruct (String.compare s t), (String.compare t u), (String.compare s u);
    try done; intros; exfalso; by apply H.
Qed.

(** The two headers after the priority lists and the fallback loop. *)
Lemma resolve_keys_eq rows :
  let present := present_keys rows in
  resolve_keys set_iter rows
  = match
      match first_present energy_keys present with
      | Some k => Some k
      | None => find is_energy_like (set_iter present)
      end,
      match first_present value_keys present with
      | Some k => Some k
      | None => find is_value_like (set_iter present)
      end
    with
    | Some ek, Some vk => Returns (ek, vk, first_present err_keys present)
    | _, _ => Raises (ValueError (Py.sorted (set_iter present)))
    end.
Proof.
  intros present. unfold resolve_keys. fold present.
  rewrite fallback_fold.
  destruct (first_present energy_keys present) as [ek|],
    (first_present value_keys present) as [vk|]; simpl; done.
Qed.

Lemma err_key_not_empty d : d ∈ err_keys → Py.is_empty d = false.
Proof.
  intros H. unfold err_keys in H.
  repeat (apply elem_of_cons in H as [->|H]; [done|]).
  by apply elem_of_nil in H.
Qed.

(** C7: when the headers are resolved the call returns three lists of one
    length, with one entry for each row whose energy and value fields both
    hold numbers, in the order of the rows, and for no other row; the
    uncertainty entry of such a row is its number, or the absence marker
    when the field is missing or not a number or no uncertainty header was
    found. *)
Theorem C7_row_filter (rows : list record) (ek vk : string) (dk : option string) :
  resolve_keys set_iter rows = Returns (ek, vk, dk) →
  let kept := filter (row_kept ek vk) rows in
  ∃ E Y DY,
    extract_xy_from_csv_rows set_iter rows = Returns (E, Y, DY) ∧
    Some <$> E = (λ r, numeric (r !! ek)) <$> kept ∧
    Some <$> Y = (λ r, numeric (r !! vk)) <$> kept ∧
    DY = (λ r, numeric (dk ≫= (r !!.))) <$> kept ∧
    length E = length kept ∧ length Y = length kept ∧ length DY = length kept.
Proof.
  intros Hres kept.
  assert (Hin : ∀ d, dk = Some d → d ∈ err_keys).
  { intros d ->. rewrite resolve_keys_eq in Hres. cbv zeta in Hres.
    remember (first_present err_keys (present_keys rows)) as dk0 eqn:Edk.
    repeat case_match; try done; injection Hres as _ _ Hd;
      rewrite Hd in Edk; symmetry in Edk;
      by apply first_present_Some in Edk as [Hin _]. }
  assert (Hdk : ∀ r : record,
            numeric (match dk with
                     | Some d => if Py.is_empty d then None else r !! d
                     | None => None
                     end) = numeric (dk ≫= (r !!.))).
  { intros r. destruct dk as [d|]; [|done]. simpl.
    by rewrite (err_key_not_empty d (Hin d eq_refl)). }
  assert (Hfold : foldl (extract_body ek vk dk) ([], [], []) rows
                  = (omap (λ r, numeric (r !! ek)) kept,
                     omap (λ r, numeric (r !! vk)) kept,
                     (λ r, numeric (dk ≫= (r !!.))) <$> kept)).
  { rewrite extract_fold. simpl. f_equal.
    apply list_fmap_ext. intros _ r _. apply Hdk. }
  assert (HE : Some <$> omap (λ r : record, numeric (r !! ek)) kept
               = (λ r, numeric (r !! ek)) <$> kept).
  { apply omap_kept_length. by intros r [H _]. }
  assert (HY : Some <$> omap (λ r : record, numeric (r !! vk)) kept
               = (λ r, numeric (r !! vk)) <$> kept).
  { apply omap_kept_length. by intros r [_ H]. }
  exists (omap (λ r : record, numeric (r !! ek)) kept),
         (omap (λ r : record, numeric (r !! vk)) kept),
         ((λ r : record, numeric (dk ≫= (r !!.))) <$> kept).
  split.
  - unfold extract_xy_from_csv_rows. rewrite <- Hfold.
    destruct rows as [|r rows]; [done|].
    rewrite Hres, bind_Returns. done.
  - split; [done|]. split; [done|]. split; [done|].
    split; [|split].
    + by rewrite <- (length_fmap Some), HE, length_fmap.
    + by rewrite <- (length_fmap Some), HY, length_fmap.
    + by rewrite length_fmap.
Qed.

(** C8, on the row that the CSV parse stores for the sample: its three
    fields are the numbers 1000.0, 2.5 and 0.1, and the resolver returns
    them as the three series. *)
Theorem C8_sample_row :
  parse_record py_float sample_raw = sample_numbers
  ∧ extract_xy_from_csv_rows set_iter [sample_numbers]
    = Returns ([1000], [2.5], [Some 0.1])%float.
Proof. split; by vm_compute. Qed.

Hypothesis set_iter_perm : ∀ X, set_iter X ≡ₚ elements X.

Lemma elem_of_set_iter X k : k ∈ set_iter X ↔ k ∈ X.
Proof. by rewrite set_iter_perm, elem_of_elements. Qed.

Lemma energy_unresolved present :
  match first_present energy_keys present with
  | Some k => Some k
  | None => find is_energy_like (set_iter present)
  end = None ↔ no_energy present.
Proof.
  unfold no_energy. rewrite <- first_present_None.
  destruct (first_present energy_keys present) as [k|].
  - split; [done|]. by intros [? _].
  - rewrite find_None_iff. split.
    + intros H. split; [done|]. intros k Hk. by apply H, elem_of_set_iter.
    + intros [_ H] k Hk. by apply H, elem_of_set_iter.
Qed.

Lemma value_unresolved present :
  match first_present value_keys present with
  | Some k => Some k
  | None => find is_value_like (set_iter present)
  end = None ↔ no_value present.
Proof.
  unfold no_value. rewrite <- first_present_None.
  destruct (first_present value_keys present) as [k|].
  - split; [done|]. by intros [? _].
  - rewrite find_None_iff. split.
    + intros H. split; [done|]. intros k Hk. by apply H, elem_of_set_iter.
    + intros [_ H] k Hk. by apply H, elem_of_set_iter.
Qed.

(** C6: for rows whose header union has no energy header or no value
    header, by the priority lists and by the fallback, the call raises the
    error that carries the headers of the union in sorted order; and the
    call raises in no other case and nothing else. *)
Theorem C6_resolution_error (rows : list record) :
  let present := present_keys rows in
  (rows ≠ [] → no_energy present ∨ no_value present →
   ∃ hs, extract_xy_from_csv_rows set_iter rows = Raises (ValueError hs) ∧
         StronglySorted Py.str_le hs ∧ hs ≡ₚ elements present)
  ∧ (∀ e, extract_xy_from_csv_rows set_iter rows = Raises e →
       rows ≠ [] ∧ (no_energy present ∨ no_value present) ∧
       ∃ hs, e = ValueError hs ∧ StronglySorted Py.str_le hs ∧ hs ≡ₚ elements present).
Proof.
  intros present.
  assert (Hhs : StronglySorted Py.str_le (Py.sorted (set_iter present))
                ∧ Py.sorted (set_iter present) ≡ₚ elements present).
  { split; [apply StronglySorted_merge_sort; apply _|].
    unfold Py.sorted. by rewrite merge_sort_Permutation, set_iter_perm. }
  pose proof (resolve_keys_eq rows) as Hres. cbv zeta in Hres. fold present in Hres.
  pose proof (energy_unresolved present) as He.
  pose proof (value_unresolved present) as Hv.
  set (ek' := match first_present energy_keys present with
              | Some k => Some k
              | None => find is_energy_like (set_iter present)
              end) in *.
  set (vk' := match first_present value_keys present with
              | Some k => Some k
              | None => find is_value_like (set_iter present)
              end) in *.
  clearbody ek' vk'. destruct ek' as [ek|], vk' as [vk|].
  - split.
    + intros _ [H|H]; [by apply He in H|by apply Hv in H].
    + intros e. unfold extract_xy_from_csv_rows.
      destruct rows as [|r rows]; [done|]. by rewrite Hres.
  - assert (Hnv : no_value present) by by apply Hv.
    split.
    + intros Hne _. exists (Py.sorted (set_iter present)). split; [|done].
      unfold extract_xy_from_csv_rows. destruct rows; [done|]. by rewrite Hres.
    + intros e. unfold extract_xy_from_csv_rows.
      destruct rows as [|r rows]; [done|]. rewrite Hres. intros [= <-].
      split; [done|]. split; [by right|]. by eexists.
  - assert (Hne' : no_energy present) by by apply He.
    split.
    + intros Hne _. exists (Py.sorted (set_iter present)). split; [|done].
      unfold extract_xy_from_csv_rows. destruct rows; [done|]. by rewrite Hres.
    + intros e. unfold extract_xy_from_csv_rows.
      destruct rows as [|r rows]; [done|]. rewrite Hres. intros [= <-].
      split; [done|]. split; [by left|]. by eexists.
  - assert (Hne' : no_energy present) by by apply He.
    split.
    + intros Hne _. exists (Py.sorted (set_iter present)). split; [|done].
      unfold extract_xy_from_csv_rows. destruct rows; [done|]. by rewrite Hres.
    + intros e. unfold extract_xy_from_csv_rows.
      destruct rows as [|r rows]; [done|]. rewrite Hres. intros [= <-].
      split; [done|]. split; [by left|]. by eexists.
Qed.

End ResolverFacts.

Lemma C6_resolution_error_witness :
  ∃ hs, extract_xy_from_csv_rows elements [{[ "foo" := VNum 1 ]}]
        = Raises (ValueError hs) ∧
        StronglySorted Py.str_le hs ∧
        hs ≡ₚ elements (present_keys [{[ "foo" := VNum 1 ]}]).
Proof.
  assert (Hk : ∀ k, k ∈ present_keys [{[ "foo" := VNum 1 ]}] → k = "foo").
  { intros k. unfold present_keys. simpl.
    rewrite dom_singleton_L, elem_of_union, elem_of_singleton.
    intros [H|H]; [exact H|]. by apply not_elem_of_empty in H. }
  apply (proj1 (C6_resolution_error elements (λ X, reflexivity (elements X))
                  [{[ "foo" := VNum 1 ]}])).
  - discriminate.
  - left. split.
    + intros k Hin Hp. apply Hk in Hp as ->. revert Hin.
      by apply (bool_decide_eq_false_1 ("foo" ∈ energy_keys)).
    + intros k Hp. apply Hk in Hp as ->. reflexivity.
Defined.

Lemma C7_row_filter_witness :
  ∃ E Y DY,
    extract_xy_from_csv_rows elements
      [sample_numbers; sample_texts; {[ "EN (EV) 1.1" := VNum 2; "DATA (B) 0.1" := VNum 3 ]}]
    = Returns (E, Y, DY) ∧
    Some <$> E = [Some 1000; Some 2]%float ∧
    Some <$> Y = [Some 2.5; Some 3]%float ∧
    DY = [Some 0.1; None]%float.
Proof.
  destruct (C7_row_filter elements
              [sample_numbers; sample_texts;
               {[ "EN (EV) 1.1" := VNum 2; "DATA (B) 0.1" := VNum 3 ]}]
              "EN (EV) 1.1" "DATA (B) 0.1" (Some "DATA-ERR (B) 0.911"))
    as (E & Y & DY & H & HE & HY & HD & _).
  - vm_compute. reflexivity.
  - exists E, Y, DY. split; [exact H|]. split; [exact HE|]. split; [exact HY|exact HD].
Defined.

(** C8 as worded fails: the three texts are not numbers, the row is left
    out, and the three series are empty. *)
Lemma C8_counterexample :
  extract_xy_from_csv_rows elements [sample_texts] = Returns ([], [], [])
  ∧ extract_xy_from_csv_rows elements [sample_texts]
    ≠ Returns ([1000], [2.5], [Some 0.1])%float.
Proof. split; [by vm_compute|]. vm_compute. discriminate. Qed.

(** * Further properties *)

(** ** The metadata parser *)

Section MetadataMore.

Import Py.

(** X1: the record that the metadata parser returns holds recognized keys
    only, and each value is stripped: it neither begins nor ends with white
    space. *)
Theorem X1_metadata_keys_and_values (c5m_text k v : string) :
  _parse_c5m_metadata c5m_text !! k = Some v →
  k ∈ keys ∧ strip v = v ∧ lstrip v = v ∧ rstrip v = v.
Proof.
  intros H. unfold _parse_c5m_metadata in H.
  destruct (meta_lines_inv (splitlines c5m_text) _ meta_inv_init) as [_ Hval].
  destruct (Hval k v H) as [Hk Hs]. split; [done|]. split; [done|].
  assert (Hl : lstrip v = v).
  { apply lstrip_id. rewrite <- Hs. apply strip_no_lead. }
  split; [done|]. unfold strip in Hs. by rewrite Hl in Hs.
Qed.

Lemma X1_metadata_keys_and_values_witness :
  "TITLE" ∈ keys ∧ strip "A  b" = "A  b" ∧ lstrip "A  b" = "A  b"
  ∧ rstrip "A  b" = "A  b".
Proof.
  apply (X1_metadata_keys_and_values ("#TITLE   A  b  " +:+ nl) "TITLE" "A  b").
  reflexivity.
Defined.

Lemma meta_lines_marker_lines lines st :
  meta_lines (marker_lines lines) st = meta_lines lines st.
Proof.
  revert st. induction lines as [|ln lines IH]; intros st; [done|].
  unfold marker_lines in *. rewrite filter_cons.
  destruct (startswith ln "#") eqn:Hh.
  - rewrite decide_True by done. simpl. apply IH.
  - rewrite decide_False by congruence. simpl.
    rewrite (meta_line_skip_other st ln Hh). apply IH.
Qed.

(** X2: the record depends on the marker lines of the text only: two texts
    with the same lines that start with the marker, in the same order, give
    the same record, whatever other lines stand between them. *)
Theorem X2_metadata_reads_marker_lines (text1 text2 : string) :
  marker_lines (splitlines text1) = marker_lines (splitlines text2) →
  _parse_c5m_metadata text1 = _parse_c5m_metadata text2.
Proof.
  intros H. unfold _parse_c5m_metadata.
  rewrite <- (meta_lines_marker_lines (splitlines text1)).
  rewrite <- (meta_lines_marker_lines (splitlines text2)).
  by rewrite H.
Qed.

Lemma X2_metadata_reads_marker_lines_witness :
  _parse_c5m_metadata ("#TITLE T" +:+ nl +:+ "1 2 3 4" +:+ nl +:+ "#+ more")
  = _parse_c5m_metadata ("x" +:+ nl +:+ "#TITLE T" +:+ nl +:+ "#+ more" +:+ nl).
Proof. apply X2_metadata_reads_marker_lines. reflexivity. Defined.

Lemma lstrip_rstrip s : lstrip (rstrip s) = rstrip (lstrip s).
Proof.
  induction s as [|c s IH]; [done|].
  rewrite rstrip_unfold. simpl lstrip at 2.
  destruct (is_space c) eqn:Hc; simpl andb; cbv iota.
  - destruct (is_empty (rstrip s)) eqn:He.
    + apply is_empty_true in He. rewrite <- IH, He. done.
    + simpl. by rewrite Hc.
  - rewrite rstrip_unfold, Hc. simpl. by rewrite Hc.
Qed.

Lemma rstrip_app_empty a b :
  rstrip b = EmptyString → rstrip (a +:+ b) = rstrip a.
Proof.
  intros Hb. induction a as [|c a IH]; [done|].
  by rewrite app_String, !rstrip_unfold, IH.
Qed.

Lemma no_space_String c s :
  no_space (String c s) = true ↔ is_space c = false ∧ no_space s = true.
Proof.
  simpl. rewrite andb_true_iff, negb_true_iff. done.
Qed.

Lemma rstrip_no_space s : no_space s = true → rstrip s = s.
Proof.
  induction s as [|c s IH]; [done|].
  intros [Hc Hs]%no_space_String. rewrite rstrip_unfold, Hc, IH; done.
Qed.

Lemma span_token_before_space s c r :
  no_space s = true → is_space c = true →
  span_token (s +:+ String c r) = (s, String c r).
Proof.
  intros Hs Hc. induction s as [|d s IH].
  - simpl. by rewrite Hc.
  - apply no_space_String in Hs as [Hd Hs].
    rewrite app_String, span_token_String, IH; done.
Qed.

Lemma span_token_whole s : no_space s = true → span_token s = (s, EmptyString).
Proof.
  induction s as [|d s IH]; [done|].
  intros [Hd Hs]%no_space_String. rewrite span_token_String, IH; done.
Qed.

Lemma split1_token s :
  no_lead s → s ≠ EmptyString →
  split1 s = match lstrip (span_token s).2 with
             | EmptyString => [(span_token s).1]
             | r => [(span_token s).1; r]
             end.
Proof.
  intros Hl Hn. unfold split1. rewrite (lstrip_id s Hl).
  destruct s; [done|]. by destruct (span_token _).
Qed.

Lemma key_is_token k : k ∈ keys → no_space k = true ∧ k ≠ EmptyString.
Proof.
  intros H. unfold keys in H.
  repeat (apply elem_of_cons in H as [->|H]; [done|]).
  by apply elem_of_nil in H.
Qed.

Lemma key_line_not_continuation k r :
  k ∈ keys → startswith (String "#" (k +:+ r)) "#+" = false.
Proof.
  intros H. unfold keys in H.
  repeat (apply elem_of_cons in H as [->|H]; [reflexivity|]).
  by apply elem_of_nil in H.
Qed.

Lemma key_line_candidate k r :
  no_space k = true → k ≠ EmptyString →
  (r = EmptyString ∨ ∃ c v, r = String c v ∧ is_space c = true) →
  candidate_key (String "#" (k +:+ r)) = Some k.
Proof.
  intros Hs Hn Hr. unfold candidate_key. simpl drop_chars.
  destruct k as [|d k]; [done|]. pose proof Hs as Hs'.
  apply no_space_String in Hs' as [Hd _].
  rewrite app_String, split_token by done. rewrite <- app_String.
  destruct Hr as [-> | (c & v & -> & Hc)].
  - assert (String d k +:+ EmptyString = String d k) as ->.
    { clear. induction (String d k) as [|a s IH]; [done|].
      by rewrite app_String, IH. }
    by rewrite span_token_whole.
  - by rewrite span_token_before_space.
Qed.

Lemma app_empty_r (s : string) : s +:+ EmptyString = s.
Proof. induction s as [|a s IH]; [done|]. by rewrite app_String, IH. Qed.

Lemma no_lead_token k r : no_space k = true → k ≠ EmptyString → no_lead (k +:+ r).
Proof.
  destruct k as [|d k]; [done|]. intros [Hd _]%no_space_String _.
  by rewrite app_String.
Qed.

(** The value that a field line gives: what follows the key, stripped. *)
Lemma key_line_value k c v :
  no_space k = true → k ≠ EmptyString → is_space c = true →
  (key_val (split1 (strip (k +:+ String c v)))).2 = strip v.
Proof.
  intros Hs Hn Hc. unfold strip at 1.
  rewrite (lstrip_id _ (no_lead_token k _ Hs Hn)).
  destruct (rstrip v) as [|a r'] eqn:Ev.
  - assert (Hrc : rstrip (String c v) = EmptyString)
      by by rewrite rstrip_unfold, Hc, Ev.
    rewrite (rstrip_app_empty _ _ Hrc), (rstrip_no_space k Hs).
    rewrite split1_token; [|by apply (no_lead_token k EmptyString Hs Hn) in Hn
                               || (rewrite <- (app_empty_r k); by apply no_lead_token)|done].
    rewrite span_token_whole by done. simpl.
    unfold strip. rewrite <- lstrip_rstrip, Ev. done.
  - assert (Hrc : rstrip (String c v) = String c (rstrip v)).
    { apply rstrip_String. by rewrite Ev. }
    rewrite rstrip_app by (rewrite Hrc; done). rewrite Hrc.
    rewrite split1_token.
    + rewrite span_token_before_space by done. cbn [fst snd].
      assert (lstrip (String c (rstrip v)) = strip v) as ->.
      { simpl. rewrite Hc. unfold strip. apply lstrip_rstrip. }
      destruct (strip v) eqn:Es; [done|]. simpl. rewrite <- Es. apply strip_idem.
    + by apply no_lead_token.
    + destruct k; [done|]. by rewrite app_String.
Qed.

(** X3: a line made of the marker, a recognized key, one white space
    character and a text sets the key to the stripped text, whatever the
    record held for it, and makes it the current field; the marker and the
    key alone set it to the empty text. *)
Theorem X3_field_line_sets_value (st : meta_state) (key : string) :
  key ∈ keys →
  (∀ c v, is_space c = true →
     meta_line st ("#" +:+ key +:+ String c v)
     = MetaState (<[key := strip v]> (meta st)) (Some key))
  ∧ meta_line st ("#" +:+ key)
    = MetaState (<[key := EmptyString]> (meta st)) (Some key).
Proof.
  intros Hin. destruct (key_is_token key Hin) as [Hs Hn]. split.
  - intros c v Hc. change ("#" +:+ key +:+ String c v)
      with (String "#" (key +:+ String c v)).
    rewrite (meta_line_field st _ key).
    + rewrite bool_decide_eq_true_2 by done. simpl drop_chars.
      by rewrite key_line_value.
    + apply startswith_hash. eauto.
    + left. by apply key_line_not_continuation.
    + apply key_line_candidate; eauto.
  - change ("#" +:+ key) with (String "#" key).
    pose proof (key_line_not_continuation key EmptyString Hin) as Hp.
    pose proof (key_line_candidate key EmptyString Hs Hn (or_introl eq_refl)) as Hk.
    rewrite app_empty_r in Hp, Hk.
    rewrite (meta_line_field st _ key).
    + rewrite bool_decide_eq_true_2 by done. simpl drop_chars.
      assert (strip key = key) as ->.
      { unfold strip. rewrite lstrip_id, rstrip_no_space; [done..|].
        rewrite <- (app_empty_r key). by apply no_lead_token. }
      rewrite split1_token; [|rewrite <- (app_empty_r key); by apply no_lead_token|done].
      by rewrite span_token_whole.
    + apply startswith_hash. eauto.
    + by left.
    + done.
Qed.

Lemma X3_field_line_sets_value_witness :
  meta_line (MetaState {[ "YEAR" := "1999" ]} None) ("#" +:+ "YEAR" +:+ String " " "  2001 ")
  = MetaState (<["YEAR" := strip "  2001 "]> {[ "YEAR" := "1999" ]}) (Some "YEAR").
Proof.
  refine (proj1 (X3_field_line_sets_value (MetaState {[ "YEAR" := "1999" ]} None)
                   "YEAR" _) " "%char "  2001 " _).
  - by apply (bool_decide_eq_true_1 ("YEAR" ∈ keys)).
  - reflexivity.
Defined.

End MetadataMore.

(** ** The covariance parser *)

Section CovarianceMore.

Import Py.

Variable parse_float : string → option float.

Lemma locate_plain_prefix pre lines i acc :
  Forall (λ ln, startswith ln "#COVARDATA" = false
                ∧ startswith ln "#/COVARDATA" = false) pre →
  locate i (pre ++ lines) acc = locate (i + length pre) lines acc.
Proof.
  intros H. revert i. induction H as [|ln pre [H1 H2] _ IH]; intros i.
  - simpl. by rewrite Nat.add_0_r.
  - simpl. rewrite H1, H2, IH. f_equal. lia.
Qed.

Lemma locate_offset d lines i acc :
  locate (d + i) lines ((λ x, d + x) <$> acc)
  = (((λ x, d + x) <$> (locate i lines acc).1),
     ((λ x, d + x) <$> (locate i lines acc).2)).
Proof.
  revert i acc. induction lines as [|ln lines IH]; intros i acc; [done|].
  simpl. destruct (startswith ln "#/COVARDATA").
  - by destruct (startswith ln "#COVARDATA").
  - replace (S (d + i)) with (d + S i) by lia.
    destruct (startswith ln "#COVARDATA").
    + apply (IH (S i) (Some i)).
    + apply IH.
Qed.

Lemma locate_suffix lines post i acc i1 :
  first_end lines i1 → locate i (lines ++ post) acc = locate i lines acc.
Proof.
  revert i acc i1. induction lines as [|ln lines IH]; intros i acc i1 Hf.
  - by destruct Hf as [[l [Hl _]] _].
  - destruct i1 as [|i1].
    + destruct Hf as [[l [[= <-] He]] _]. simpl. by rewrite He.
    + apply first_end_cons in Hf as [Hne Hf]. simpl. rewrite Hne. by eapply IH.
Qed.

Lemma locate_snd lines i acc i1 :
  first_end lines i1 → (locate i lines acc).2 = Some (i + i1).
Proof.
  revert i acc i1. induction lines as [|ln lines IH]; intros i acc i1 Hf.
  - by destruct Hf as [[l [Hl _]] _].
  - destruct i1 as [|i1].
    + destruct Hf as [[l [[= <-] He]] _]. simpl. rewrite He. simpl.
      by rewrite Nat.add_0_r.
    + apply first_end_cons in Hf as [Hne Hf]. simpl. rewrite Hne.
      rewrite (IH _ _ i1 Hf). f_equal. lia.
Qed.

Lemma block_lines_surrounded pre lines post i1 :
  Forall (λ ln, startswith ln "#COVARDATA" = false
                ∧ startswith ln "#/COVARDATA" = false) pre →
  first_end lines i1 →
  block_lines (pre ++ lines ++ post) = block_lines lines.
Proof.
  intros Hpre Hf. unfold block_lines.
  rewrite (locate_plain_prefix pre _ 0 None Hpre).
  rewrite (locate_suffix lines post _ None i1 Hf).
  pose proof (locate_offset (length pre) lines 0 None) as Ho.
  rewrite Nat.add_0_r in Ho. simpl in Ho. simpl. rewrite Ho.
  pose proof (locate_snd lines 0 None i1 Hf) as Hs.
  destruct (locate 0 lines None) as [[i0|] [j1|]]; simpl in *; try done.
  injection Hs as ->.
  assert (Hlt : i1 < length lines).
  { destruct Hf as [[l [Hl _]] _]. by eapply lookup_lt_Some. }
  destruct (i1 <=? i0)%nat eqn:E.
  - assert ((length pre + i1 <=? length pre + i0)%nat = true) as ->; [|done].
    apply Nat.leb_le. apply Nat.leb_le in E. lia.
  - assert ((length pre + i1 <=? length pre + i0)%nat = false) as ->.
    { apply Nat.leb_gt. apply Nat.leb_gt in E. lia. }
    apply Nat.leb_gt in E. f_equal.
    replace (length pre + i0 + 1) with (length pre + (i0 + 1)) by lia.
    rewrite drop_app_add.
    replace (length pre + i1 - (length pre + (i0 + 1))) with (i1 - (i0 + 1)) by lia.
    rewrite drop_app_le by lia. rewrite take_app_le; [done|].
    rewrite length_drop. lia.
Qed.

(** X4: lines before the block that start with neither marker, and all
    lines after the first line that starts with the end marker, do not
    change what the covariance parse returns: a second block further down
    the text is never read. *)
Theorem X4_covariance_reads_first_block
    (text text' : string) (pre post : list string) (i1 : nat) :
  splitlines text' = pre ++ splitlines text ++ post →
  Forall (λ ln, startswith ln "#COVARDATA" = false
                ∧ startswith ln "#/COVARDATA" = false) pre →
  first_end (splitlines text) i1 →
  _parse_c5m_covariance parse_float text'
  = _parse_c5m_covariance parse_float text.
Proof.
  intros Ht Hpre Hf. unfold _parse_c5m_covariance.
  by rewrite Ht, (block_lines_surrounded pre _ post i1 Hpre Hf).
Qed.

(** X5: an entry of the correlation matrix that no row supplies is 0.0
    off the diagonal: when the list of row i is too short to reach position
    j below i, both (i,j) and (j,i) hold 0.0. *)
Theorem X5_corr_missing_is_zero (rows : list point) :
  ∃ c, build_corr rows = Returns c ∧
    ∀ (i j : nat) row,
      (j < i)%nat → rows !! i = Some row → row_corr_list row !! j = None →
      cell c i j = Some 0%float ∧ cell c j i = Some 0%float.
Proof.
  destruct (build_corr_spec rows) as (c & Hc & Hsq & Hcc).
  exists c. split; [done|]. intros i j row Hji Hi Hj.
  pose proof (lookup_lt_Some _ _ _ Hi) as Hlt.
  assert (He : corr_entry rows i j = 0%float).
  { unfold corr_entry, default_entry. rewrite Nat.max_l, Nat.min_r by lia.
    rewrite Hi. simpl. rewrite Hj. rewrite decide_False by lia. done. }
  rewrite !Hcc by lia. by rewrite (corr_entry_sym rows j i), He.
Qed.

Lemma omap_nil_Forall {A B} (f : A → option B) (l : list A) :
  omap f l = [] ↔ Forall (λ x, f x = None) l.
Proof.
  induction l as [|x l IH]; simpl.
  - split; [constructor|done].
  - destruct (f x) eqn:E.
    + split; [done|]. intros H. inversion H; congruence.
    + rewrite IH. split; [by constructor|]. intros H. by inversion H.
Qed.

(** X6: the covariance parse returns the empty result exactly when no
    block is located or no line of the block gives a point; otherwise the
    lists E_min, E_max, data and std_pct hold the first four numbers of the
    lines that give a point, in the order of the lines. *)
Theorem X6_covariance_empty_or_rows (text : string) :
  (_parse_c5m_covariance parse_float text = Returns None ↔
   block_lines (splitlines text) = None
   ∨ ∃ block, block_lines (splitlines text) = Some block
              ∧ Forall (λ ln, parse_row parse_float ln = None) block)
  ∧ (∀ c, _parse_c5m_covariance parse_float text = Returns (Some c) →
       ∃ block, block_lines (splitlines text) = Some block ∧
         let rows := omap (parse_row parse_float) block in
         rows ≠ [] ∧
         E_min c = row_E_min <$> rows ∧ E_max c = row_E_max <$> rows ∧
         data c = row_y <$> rows ∧ std_pct c = row_std_pct <$> rows).
Proof.
  destruct (parse_covariance_cases parse_float text)
    as [[Hr Hrows] | (block & c & cv & Hb & Hne & Hr & _)].
  - split.
    + split; [|done]. intros _.
      destruct (block_lines (splitlines text)) as [block|] eqn:Hb; [|by left].
      right. exists block. split; [done|].
      apply omap_nil_Forall. rewrite <- parse_rows_omap. by apply Hrows.
    + intros c. by rewrite Hr.
  - simpl in *. split.
    + rewrite Hr. split; [done|]. intros [Hn | (block' & Hb' & Hall)].
      * congruence.
      * rewrite Hb in Hb'. injection Hb' as <-.
        apply omap_nil_Forall in Hall. rewrite <- parse_rows_omap in Hall. done.
    + intros c'. rewrite Hr. intros [= <-]. exists block. split; [done|].
      simpl. rewrite <- parse_rows_omap. done.
Qed.

End CovarianceMore.

Lemma X4_covariance_reads_first_block_witness :
  _parse_c5m_covariance py_float
    ("note" +:+ nl +:+ sample_c5m +:+ "#COVARDATA" +:+ nl +:+ "9 9 9 9" +:+ nl
     +:+ "#/COVARDATA" +:+ nl)
  = _parse_c5m_covariance py_float sample_c5m.
Proof.
  apply (X4_covariance_reads_first_block py_float sample_c5m _ ["note"]
           ["#COVARDATA"; "9 9 9 9"; "#/COVARDATA"] 4).
  - reflexivity.
  - repeat constructor.
  - split; [by exists "#/COVARDATA"|].
    intros k ln Hk. destruct k as [|[|[|[|k]]]]; try lia; by intros [= <-].
Defined.

Lemma X5_corr_missing_is_zero_witness :
  ∃ c, build_corr [Point 0 1 10 5 []; Point 1 2 20 8 []] = Returns c ∧
       cell c 1 0 = Some 0%float ∧ cell c 0 1 = Some 0%float.
Proof.
  destruct (X5_corr_missing_is_zero [Point 0 1 10 5 []; Point 1 2 20 8 []])
    as (c & Hc & H).
  exists c. split; [exact Hc|].
  exact (H 1 0 (Point 1 2 20 8 []) (le_n 1) eq_refl eq_refl).
Defined.

(** X7: the entry (j,i) of the covariance matrix is the product of the
    same three floats as the entry (i,j), with the two sigmas taken in the
    other order; as each product is rounded, the matrix is not always
    symmetric: a block of two rows gives cov[0][1] and cov[1][0] that
    differ. *)
Theorem X7_cov_mirror_entries :
  (∀ parse_float text c,
     _parse_c5m_covariance parse_float text = Returns (Some c) →
     ∀ i j, i < length (data c) → j < length (data c) →
       ∃ cij si sj,
         cell (corr c) i j = Some cij ∧ sigma c !! i = Some si ∧
         sigma c !! j = Some sj ∧
         cell (cov c) i j = Some (cij * si * sj)%float ∧
         cell (cov c) j i = Some (cij * sj * si)%float)
  ∧ ∃ c x y,
      _parse_c5m_covariance py_float skew_c5m = Returns (Some c) ∧
      cell (corr c) 0 1 = cell (corr c) 1 0 ∧
      cell (cov c) 0 1 = Some x ∧ cell (cov c) 1 0 = Some y ∧
      PrimFloat.eqb x y = false.
Proof.
  split.
  - intros parse_float text c Hr i j Hi Hj.
    destruct (parse_covariance_cases parse_float text)
      as [[Hn _] | (block & cr & cv & Hb & Hne & Hs & _ & Hsq & Hsqv & Hcc & Hcv)];
      [congruence|].
    simpl in *. rewrite Hs in Hr. injection Hr as <-. simpl in *.
    rewrite length_fmap in Hi, Hj.
    destruct (Hcv i j Hi Hj) as (cij & si & sj & H1 & H2 & H3 & H4).
    destruct (Hcv j i Hj Hi) as (cji & sj' & si' & H1' & H2' & H3' & H4').
    exists cij, si, sj. repeat split; try done.
    rewrite H4'. rewrite Hcc in H1, H1' by done.
    rewrite (corr_entry_sym _ j i) in H1'. congruence.
  - eexists _, _, _. split; [vm_compute; reflexivity|].
    split; [by vm_compute|]. split; [vm_compute; reflexivity|].
    split; [vm_compute; reflexivity|]. by vm_compute.
Qed.

(** ** The column resolver *)

Lemma omap_kept_length_gen {A B} (f : A → option B) (l : list A) :
  (∀ x, x ∈ l → is_Some (f x)) → Some <$> omap f l = f <$> l.
Proof.
  induction l as [|x l IH]; intros H; [done|].
  destruct (H x) as [y Hy]; [apply list_elem_of_here|].
  simpl. rewrite Hy. simpl. f_equal. apply IH.
  intros z Hz. apply H. by apply list_elem_of_further.
Qed.

Section ResolverMore.

Variable set_iter : gset string → list string.

Lemma resolve_keys_dk rows ek vk dk d :
  resolve_keys set_iter rows = Returns (ek, vk, dk) → dk = Some d →
  Py.is_empty d = false.
Proof.
  intros Hres ->. rewrite resolve_keys_eq in Hres. cbv zeta in Hres.
  remember (first_present err_keys (present_keys rows)) as dk0 eqn:Edk.
  apply err_key_not_empty.
  repeat case_match; try done; injection Hres as _ _ Hd;
    rewrite Hd in Edk; symmetry in Edk;
    by apply first_present_Some in Edk as [Hin _].
Qed.

(** What the call returns once the headers are chosen. *)
Lemma extract_resolved rows ek vk dk :
  resolve_keys set_iter rows = Returns (ek, vk, dk) →
  extract_xy_from_csv_rows set_iter rows
  = Returns (omap (λ r : record, numeric (r !! ek)) (filter (row_kept ek vk) rows),
             omap (λ r : record, numeric (r !! vk)) (filter (row_kept ek vk) rows),
             (λ r : record, numeric (dk ≫= (r !!.))) <$> filter (row_kept ek vk) rows).
Proof.
  intros Hres. unfold extract_xy_from_csv_rows.
  destruct rows as [|r rows]; [done|].
  rewrite Hres, bind_Returns. cbv beta iota. rewrite extract_fold. simpl app.
  do 2 f_equal. apply list_fmap_ext. intros _ r' _.
  destruct dk as [d|]; [|done]. simpl.
  by rewrite (resolve_keys_dk _ _ _ _ d Hres eq_refl).
Qed.

Lemma kept_length ek vk (rows : list record) :
  length (omap (λ r : record, numeric (r !! ek)) (filter (row_kept ek vk) rows))
  = length (filter (row_kept ek vk) rows)
  ∧ length (omap (λ r : record, numeric (r !! vk)) (filter (row_kept ek vk) rows))
    = length (filter (row_kept ek vk) rows).
Proof.
  split.
  - rewrite <- (length_fmap Some), omap_kept_length, length_fmap; [done|].
    by intros r [H _].
  - rewrite <- (length_fmap Some), omap_kept_length, length_fmap; [done|].
    by intros r [_ H].
Qed.


(** X10: when the header union holds none of the uncertainty headers, the
    series of uncertainties is the absence marker for every row kept: it
    has the length of the two other series and holds nothing else. *)
Theorem X10_no_uncertainty_header
    (rows : list record) (E Y : list float) (DY : list (option float)) :
  (∀ k, k ∈ err_keys → k ∉ present_keys rows) →
  extract_xy_from_csv_rows set_iter rows = Returns (E, Y, DY) →
  DY = replicate (length E) None ∧ length Y = length E.
Proof.
  intros Hno Hr. apply first_present_None in Hno.
  destruct rows as [|r rows]; [by injection Hr as <- <- <-|].
  destruct (resolve_keys set_iter (r :: rows)) as [[[ek vk] dk]|e] eqn:Hres.
  - assert (dk = None) as ->.
    { rewrite resolve_keys_eq in Hres. cbv zeta in Hres. rewrite Hno in Hres.
      repeat case_match; try done; by injection Hres. }
    rewrite (extract_resolved _ _ _ _ Hres) in Hr. injection Hr as <- <- <-.
    destruct (kept_length ek vk (r :: rows)) as [-> ->]. split; [|done].
    generalize (filter (row_kept ek vk) (r :: rows)). intros l.
    induction l as [|x l IH]; [done|]. simpl. by rewrite <- IH.
  - unfold extract_xy_from_csv_rows in Hr. by rewrite Hres in Hr.
Qed.

Lemma numeric_parse_record parse_float (raw : gmap string (option string)) k :
  numeric (parse_record parse_float raw !! k) = raw_number parse_float raw k.
Proof.
  unfold parse_record, raw_number. rewrite lookup_fmap.
  destruct (raw !! k) as [[t|]|]; simpl; try done.
  destruct (Py.is_empty t || String.eqb (Py.lower t) "null"); [done|].
  by destruct (parse_float t).
Qed.

Lemma filter_fmap {A B} (f : A → B) (P : B → Prop) `{∀ x, Decision (P x)}
    (l : list A) :
  filter P (f <$> l) = f <$> filter (λ x, P (f x)) l.
Proof.
  induction l as [|x l IH]; [done|].
  rewrite fmap_cons, !filter_cons, IH. by case_decide.
Qed.

(** X11: for the rows that [download_dataset_csv] builds from the rows of
    the reader, a row is kept exactly when its energy field and its value
    field both are texts that are not empty, not null, and read as floats;
    the series hold these floats in the order of the rows, and the headers
    looked at are those of the reader. *)
Theorem X11_csv_rows_then_resolver (parse_float : string → option float)
    (raws : list (gmap string (option string))) (ek vk : string)
    (dk : option string) :
  let rows := parse_record parse_float <$> raws in
  let kept := filter (λ raw, is_Some (raw_number parse_float raw ek)
                             ∧ is_Some (raw_number parse_float raw vk)) raws in
  resolve_keys set_iter rows = Returns (ek, vk, dk) →
  present_keys rows = ⋃ (dom <$> raws) ∧
  ∃ E Y DY,
    extract_xy_from_csv_rows set_iter rows = Returns (E, Y, DY) ∧
    Some <$> E = (λ raw, raw_number parse_float raw ek) <$> kept ∧
    Some <$> Y = (λ raw, raw_number parse_float raw vk) <$> kept ∧
    DY = (λ raw, dk ≫= raw_number parse_float raw) <$> kept.
Proof.
  intros rows kept Hres. split.
  - unfold present_keys, rows. rewrite <- list_fmap_compose. f_equal.
    apply list_fmap_ext. intros _ raw _. simpl. apply dom_fmap_L.
  - rewrite (extract_resolved _ _ _ _ Hres). eexists _, _, _. split; [done|].
    assert (Hk : filter (row_kept ek vk) rows = parse_record parse_float <$> kept).
    { unfold rows, kept. rewrite filter_fmap. f_equal.
      apply list_filter_iff. intros raw. unfold row_kept.
      by rewrite !numeric_parse_record. }
    rewrite Hk. split; [|split].
    + rewrite omap_kept_length_gen.
      * rewrite <- list_fmap_compose. apply list_fmap_ext. intros _ raw _. simpl.
        apply numeric_parse_record.
      * intros r [raw [-> Hin]]%list_elem_of_fmap.
        apply list_elem_of_filter in Hin as [[H _] _].
        by rewrite numeric_parse_record.
    + rewrite omap_kept_length_gen.
      * rewrite <- list_fmap_compose. apply list_fmap_ext. intros _ raw _. simpl.
        apply numeric_parse_record.
      * intros r [raw [-> Hin]]%list_elem_of_fmap.
        apply list_elem_of_filter in Hin as [[_ H] _].
        by rewrite numeric_parse_record.
    + rewrite <- list_fmap_compose. apply list_fmap_ext. intros _ raw _. simpl.
      destruct dk as [d|]; [|done]. simpl. apply numeric_parse_record.
Qed.

End ResolverMore.


Lemma find_first {A} (f : A → bool) (l : list A) (x : A) :
  find f l = Some x →
  ∃ l1 l2, l = l1 ++ x :: l2 ∧ f x = true ∧ Forall (λ k, f k = false) l1.
Proof.
  induction l as [|a l IH]; [done|]. simpl.
  destruct (f a) eqn:Ha.
  - intros [= <-]. exists [], l. by repeat split.
  - intros (l1 & l2 & -> & Hx & Hl1)%IH. exists (a :: l1), l2.
    split; [done|]. split; [done|]. by constructor.
Qed.

(** X9: a header that the priority list does not give is, once the
    headers are resolved, the first header that passes the fallback test
    in the order in which the header set is iterated: no header before it
    in that order passes the test; this holds for the energy and for the
    value header.  So the result depends on that order: for a row with two
    headers that pass the energy test, two orders give two different energy
    series. *)
Theorem X9_fallback_depends_on_order :
  (∀ (set_iter : gset string → list string) (rows : list record)
     (ek vk : string) (dk : option string),
     resolve_keys set_iter rows = Returns (ek, vk, dk) →
     (first_present energy_keys (present_keys rows) = None →
      ∃ l1 l2, set_iter (present_keys rows) = l1 ++ ek :: l2 ∧
               is_energy_like ek = true ∧
               Forall (λ k, is_energy_like k = false) l1)
     ∧ (first_present value_keys (present_keys rows) = None →
        ∃ l1 l2, set_iter (present_keys rows) = l1 ++ vk :: l2 ∧
                 is_value_like vk = true ∧
                 Forall (λ k, is_value_like k = false) l1))
  ∧ ∃ (it1 it2 : gset string → list string) E1 E2 Y DY x1 x2,
      (∀ X, it1 X ≡ₚ elements X) ∧ (∀ X, it2 X ≡ₚ elements X) ∧
      (∀ k, k ∈ energy_keys → k ∉ present_keys [two_energy_like]) ∧
      extract_xy_from_csv_rows it1 [two_energy_like] = Returns (E1, Y, DY) ∧
      extract_xy_from_csv_rows it2 [two_energy_like] = Returns (E2, Y, DY) ∧
      E1 = [x1] ∧ E2 = [x2] ∧ PrimFloat.eqb x1 x2 = false.
Proof.
  split.
  - intros set_iter rows ek vk dk Hres.
    rewrite resolve_keys_eq in Hres. cbv zeta in Hres.
    split.
    + intros He. rewrite He in Hres.
      destruct (find is_energy_like (set_iter (present_keys rows))) as [e|] eqn:Ef;
        [|done].
      repeat case_match; try done; injection Hres as -> _ _;
        by apply find_first.
    + intros Hv. rewrite Hv in Hres.
      destruct (find is_value_like (set_iter (present_keys rows))) as [v|] eqn:Ef;
        [|by repeat case_match].
      repeat case_match; try done; injection Hres as _ -> _;
        by apply find_first.
  - exists elements, (λ X, reverse (elements X)).
    eexists _, _, _, _, _, _. split; [done|].
    split; [intros X; apply reverse_Permutation|].
    split.
    { apply first_present_None. by vm_compute. }
    split; [vm_compute; reflexivity|].
    split; [vm_compute; reflexivity|].
    split; [reflexivity|]. split; [reflexivity|]. by vm_compute.
Qed.

Lemma X9_fallback_depends_on_order_witness :
  ∃ l1 l2, elements (present_keys [two_energy_like]) = l1 ++ "ENA EV" :: l2 ∧
           is_energy_like "ENA EV" = true ∧
           Forall (λ k, is_energy_like k = false) l1.
Proof.
  refine (proj1 (proj1 X9_fallback_depends_on_order elements [two_energy_like]
                   "ENA EV" "y" None _) _).
  - vm_compute. reflexivity.
  - vm_compute. reflexivity.
Defined.

Lemma X10_no_uncertainty_header_witness :
  [@None float] = replicate (length [1%float]) None
  ∧ length [2%float] = length [1%float].
Proof.
  apply (X10_no_uncertainty_header elements
           [{[ "EN (EV) 1.1" := VNum 1; "DATA (B) 0.1" := VNum 2 ]}]
           [1%float] [2%float] [None]).
  - apply first_present_None. vm_compute. reflexivity.
  - vm_compute. reflexivity.
Defined.

Lemma X11_csv_rows_then_resolver_witness :
  ∃ E Y DY,
    extract_xy_from_csv_rows elements
      (parse_record py_float <$>
         [sample_raw;
          {[ "EN (EV) 1.1" := Some "NULL"; "DATA (B) 0.1" := Some "3" ]};
          {[ "EN (EV) 1.1" := Some "7"; "DATA (B) 0.1" := Some "3";
             "DATA-ERR (B) 0.911" := Some "n/a" ]}])
    = Returns (E, Y, DY) ∧
    Some <$> E = [Some 1000; Some 7]%float ∧
    Some <$> Y = [Some 2.5; Some 3]%float ∧
    DY = [Some 0.1; None]%float.
Proof.
  destruct (X11_csv_rows_then_resolver elements py_float
              [sample_raw;
               {[ "EN (EV) 1.1" := Some "NULL"; "DATA (B) 0.1" := Some "3" ]};
               {[ "EN (EV) 1.1" := Some "7"; "DATA (B) 0.1" := Some "3";
                  "DATA-ERR (B) 0.911" := Some "n/a" ]}]
              "EN (EV) 1.1" "DATA (B) 0.1" (Some "DATA-ERR (B) 0.911"))
    as (_ & E & Y & DY & H & HE & HY & HD).
  - vm_compute. reflexivity.
  - exists E, Y, DY. split; [exact H|]. split; [exact HE|]. split; [exact HY|exact HD].
Defined.

(** ** The parameters of a query *)

Section RequestFacts.

Lemma add_if_set_lookup k v (ps : params) k' :
  add_if_set k v ps !! k'
  = if decide (k = k') then match given v with Some t => Some t | None => ps !! k' end
    else ps !! k'.
Proof.
  unfold add_if_set, given. destruct v as [t|].
  - destruct (Py.is_empty t); [by case_decide|].
    rewrite lookup_insert. by case_decide.
  - by case_decide.
Qed.

Lemma filter_params_lookup target reaction quantity extra k :
  filter_params target reaction quantity extra !! k
  = filter_param target reaction quantity extra k.
Proof.
  unfold filter_params, filter_param.
  assert (Hps : add_if_set "Quantity" quantity
                  (add_if_set "Reaction" reaction
                     (add_if_set "Target" target ∅)) !! k
                = named_filter target reaction quantity k).
  { rewrite !add_if_set_lookup, lookup_empty. unfold named_filter.
    destruct (String.eqb k "Target") eqn:E1.
    { apply String.eqb_eq in E1 as ->.
      rewrite (decide_False (P := "Quantity" = "Target")) by done.
      rewrite (decide_False (P := "Reaction" = "Target")) by done.
      rewrite decide_True by done. by destruct (given target). }
    apply String.eqb_neq in E1.
    destruct (String.eqb k "Reaction") eqn:E2.
    { apply String.eqb_eq in E2 as ->.
      rewrite (decide_False (P := "Quantity" = "Reaction")) by done.
      rewrite decide_True by done. by destruct (given reaction). }
    apply String.eqb_neq in E2.
    destruct (String.eqb k "Quantity") eqn:E3.
    { apply String.eqb_eq in E3 as ->.
      rewrite decide_True by done. by destruct (given quantity). }
    apply String.eqb_neq in E3.
    rewrite !decide_False by congruence. done. }
  destruct extra as [ex|]; simpl; [|done].
  case_bool_decide as He.
  - subst ex. by rewrite lookup_empty.
  - rewrite lookup_union, Hps.
    by destruct (ex !! k), (named_filter target reaction quantity k).
Qed.

(** X12: for an output that is json, xml, csv or txt in any letter case,
    the search sends the flag of that name with the empty text, whatever
    [extra] holds for it; for every other key it sends the entry of [extra]
    or else the named filter that is given (not [None], not empty), so an
    entry of [extra] replaces the named filter of the same key; for any
    other output it raises. *)
Theorem X12_search_parameters (target reaction quantity : option string)
    (extra : option params) (output : string) :
  (Py.lower output ∈ ["json"; "xml"; "csv"; "txt"] →
   ∃ ps, search_params target reaction quantity extra output = inr ps ∧
         ps !! Py.lower output = Some EmptyString ∧
         ∀ k, k ≠ Py.lower output →
              ps !! k = filter_param target reaction quantity extra k)
  ∧ (Py.lower output ∉ ["json"; "xml"; "csv"; "txt"] →
     search_params target reaction quantity extra output = inl BadOutput).
Proof.
  unfold search_params. set (o := Py.lower output). split.
  - intros Hin.
    assert (Hset : ∀ f, o = f →
      ∃ ps, inr (<[f := EmptyString]>
                   (filter_params target reaction quantity extra))
            = (inr ps : request_error + params) ∧
            ps !! o = Some EmptyString ∧
            ∀ k, k ≠ o → ps !! k = filter_param target reaction quantity extra k).
    { intros f ->. eexists. split; [done|]. split; [apply lookup_insert_eq|].
      intros k Hk. rewrite lookup_insert_ne by done. apply filter_params_lookup. }
    destruct (String.eqb o "json") eqn:E1; [apply Hset; by apply String.eqb_eq|].
    destruct (String.eqb o "xml") eqn:E2; [apply Hset; by apply String.eqb_eq|].
    destruct (String.eqb o "csv") eqn:E3; [apply Hset; by apply String.eqb_eq|].
    destruct (String.eqb o "txt") eqn:E4; [apply Hset; by apply String.eqb_eq|].
    apply String.eqb_neq in E1, E2, E3, E4.
    repeat (apply elem_of_cons in Hin as [Hin|Hin]; [done|]).
    by apply elem_of_nil in Hin.
  - intros Hnot.
    assert (Hne : ∀ f, f ∈ ["json"; "xml"; "csv"; "txt"] → String.eqb o f = false).
    { intros f Hf. apply String.eqb_neq. by intros ->. }
    rewrite (Hne "json"), (Hne "xml"), (Hne "csv"), (Hne "txt");
      [done|..]; repeat constructor.
Qed.

(** X13: for an op that is c4, c5, c5a, c5m or c5ma, spelled so, the bulk
    retrieval sends that op, whatever [extra] holds for the key op, and for
    every other key the entry of [extra] or else the named filter that is
    given; for any other op it raises; and the download of one dataset in
    the C5 family accepts the ops that the bulk retrieval accepts, but for
    c4. *)
Theorem X13_bulk_parameters (target reaction quantity : option string)
    (extra : option params) (op dataset_id : string) :
  (op ∈ ["c4"; "c5"; "c5a"; "c5m"; "c5ma"] →
   ∃ ps, bulk_params target reaction quantity extra op = inr ps ∧
         ps !! "op" = Some op ∧
         ∀ k, k ≠ "op" → ps !! k = filter_param target reaction quantity extra k)
  ∧ (op ∉ ["c4"; "c5"; "c5a"; "c5m"; "c5ma"] →
     bulk_params target reaction quantity extra op = inl BadOp)
  ∧ ((∃ ps, c5_params dataset_id op = inr ps) ↔
     op ≠ "c4" ∧ ∃ ps, bulk_params target reaction quantity extra op = inr ps).
Proof.
  unfold bulk_params, c5_params. split; [|split].
  - intros Hin. rewrite bool_decide_eq_true_2 by done.
    eexists. split; [done|]. split; [apply lookup_insert_eq|].
    intros k Hk. rewrite lookup_insert_ne by done. apply filter_params_lookup.
  - intros Hnot. by rewrite bool_decide_eq_false_2.
  - case_bool_decide as H1; case_bool_decide as H2.
    + split; [|eauto]. intros _. split; [|eauto].
      intros ->. revert H1. by apply (bool_decide_eq_false_1 _).
    + exfalso. apply H2. by apply list_elem_of_further.
    + split; [by intros [? ?]|]. intros [Hne _].
      apply elem_of_cons in H2 as [->|H2]; done.
    + split; [by intros [? ?]|]. by intros [_ [? ?]].
Qed.

Lemma contains_eq_String c s :
  Py.contains "=" (String c s) = Ascii.eqb c "=" || Py.contains "=" s.
Proof.
  change (Py.contains "=" (String c s))
    with (String.prefix "=" (String c s) || Py.contains "=" s).
  rewrite prefix_String, prefix_empty.
  destruct (ascii_dec "=" c) as [<-|Hne]; [done|].
  assert (Ascii.eqb c "=" = false) as -> by (apply Ascii.eqb_neq; congruence).
  done.
Qed.

Lemma contains_eq_empty : Py.contains "=" EmptyString = false.
Proof. reflexivity. Qed.

(** An item splits at its first equals sign. *)
Lemma split_eq1_join k v :
  Py.contains "=" k = false → split_eq1 (k +:+ "=" +:+ v) = [k; v].
Proof.
  induction k as [|c k IH]; intros Hk; [reflexivity|].
  rewrite contains_eq_String in Hk. apply orb_false_iff in Hk as [Hc Hk].
  rewrite app_String. simpl. rewrite Hc, (IH Hk). done.
Qed.

Lemma contains_eq_join k v : Py.contains "=" (k +:+ "=" +:+ v) = true.
Proof.
  induction k as [|c k IH].
  { change (EmptyString +:+ "=" +:+ v) with (String "=" v).
    by rewrite contains_eq_String. }
  rewrite app_String, contains_eq_String, IH. by destruct (Ascii.eqb c "=").
Qed.

Lemma has_eq_is_join kv :
  Py.contains "=" kv = true →
  ∃ k v, kv = k +:+ "=" +:+ v ∧ Py.contains "=" k = false.
Proof.
  induction kv as [|c kv IH]; [done|].
  rewrite contains_eq_String. destruct (Ascii.eqb c "=") eqn:Hc.
  - apply Ascii.eqb_eq in Hc as ->. intros _. by exists EmptyString, kv.
  - simpl. intros (k & v & -> & Hk)%IH. exists (String c k), v.
    split; [done|]. by rewrite contains_eq_String, Hc, Hk.
Qed.

Lemma extra_loop_item k v rest (extra : params) :
  Py.contains "=" k = false →
  extra_loop ((k +:+ "=" +:+ v) :: rest) extra = extra_loop rest (<[k := v]> extra).
Proof.
  intros Hk. simpl. by rewrite contains_eq_join, split_eq1_join.
Qed.

Lemma extra_loop_pairs (pairs : list (string * string)) (extra : params) :
  Forall (λ p, Py.contains "=" p.1 = false) pairs →
  extra_loop (extra_item <$> pairs) extra
  = inr (list_to_map (reverse pairs) ∪ extra).
Proof.
  intros H. revert extra.
  induction H as [|[k v] pairs Hk _ IH]; intros extra.
  - simpl. by rewrite (left_id_L ∅ (∪)).
  - rewrite fmap_cons. unfold extra_item at 1. cbn [fst snd].
    rewrite extra_loop_item by done. rewrite IH, reverse_cons, list_to_map_app.
    simpl. rewrite insert_empty, <- (assoc_L (∪)).
    by rewrite <- insert_union_singleton_l.
Qed.

Lemma extra_loop_first_bad good bad rest (extra : params) :
  Forall (λ kv, Py.contains "=" kv = true) good →
  Py.contains "=" bad = false →
  extra_loop (good ++ bad :: rest) extra = inl (BadExtra bad).
Proof.
  intros Hgood Hbad. revert extra.
  induction Hgood as [|kv good Hkv _ IH]; intros extra.
  - simpl. by rewrite Hbad.
  - destruct (has_eq_is_join kv Hkv) as (k & v & -> & Hk).
    rewrite <- app_comm_cons, extra_loop_item by done. apply IH.
Qed.

(** X14: the loop that reads the [--extra] items splits each item at its
    first equals sign, so that a value may hold equals signs, and a later
    item replaces an earlier one with the same key: for items made of keys
    without an equals sign and of values, it returns the dict of the pairs,
    the last pair of a key standing for it. *)
Theorem X14_extra_items_round_trip (pairs : list (string * string)) :
  Forall (λ p, Py.contains "=" p.1 = false) pairs →
  extra_loop (extra_item <$> pairs) ∅ = inr (list_to_map (reverse pairs)).
Proof.
  intros H. rewrite (extra_loop_pairs pairs ∅ H).
  by rewrite (right_id_L ∅ (∪)).
Qed.

Lemma X14_extra_items_round_trip_witness :
  extra_loop (extra_item <$> [("Author1", "Michel"); ("q", "a=b"); ("Author1", "Mi")]) ∅
  = inr (list_to_map (reverse [("Author1", "Michel"); ("q", "a=b"); ("Author1", "Mi")])).
Proof.
  apply X14_extra_items_round_trip. repeat constructor.
Defined.

(** X15: the loop raises at the first item that has no equals sign, with
    that item, and at no other item and for no other reason: when every
    item has an equals sign it returns. *)
Theorem X15_extra_items_error (items : list string) (extra : params) :
  (∀ good bad rest,
     items = good ++ bad :: rest →
     Forall (λ kv, Py.contains "=" kv = true) good →
     Py.contains "=" bad = false →
     extra_loop items extra = inl (BadExtra bad))
  ∧ (Forall (λ kv, Py.contains "=" kv = true) items →
     ∃ ps, extra_loop items extra = inr ps).
Proof.
  split.
  - intros good bad rest -> Hgood Hbad. by apply extra_loop_first_bad.
  - intros Hall. revert extra.
    induction Hall as [|kv items Hkv _ IH]; intros extra; [by eexists|].
    destruct (has_eq_is_join kv Hkv) as (k & v & -> & Hk).
    rewrite extra_loop_item by done. apply IH.
Qed.

Lemma X15_extra_items_error_witness :
  extra_loop ["a=1"; "b"; "c=2"; "d"] ∅ = inl (BadExtra "b").
Proof.
  apply (proj1 (X15_extra_items_error ["a=1"; "b"; "c=2"; "d"] ∅)
           ["a=1"] "b" ["c=2"; "d"]).
  - reflexivity.
  - repeat constructor.
  - reflexivity.
Defined.

(** X16: the bulk command reads the [--extra] items before the op is
    looked at, so an item without an equals sign is what it reports even
    for a wrong op; with well-formed items and an accepted op, the op of
    the command line is sent even when an item gives the key op, and an
    item replaces the named filter of its key. *)
Theorem X16_bulk_command (target reaction quantity : option string)
    (pairs : list (string * string)) (op : string) :
  Forall (λ p, Py.contains "=" p.1 = false) pairs →
  (∀ bad rest, Py.contains "=" bad = false →
     cmd_bulk_params target reaction quantity
       ((extra_item <$> pairs) ++ bad :: rest) op = inl (BadExtra bad))
  ∧ (op ∈ ["c4"; "c5"; "c5a"; "c5m"; "c5ma"] →
     ∃ ps, cmd_bulk_params target reaction quantity (extra_item <$> pairs) op
           = inr ps ∧
           ps !! "op" = Some op ∧
           ∀ k, k ≠ "op" →
             ps !! k = match list_to_map (M := params) (reverse pairs) !! k with
                       | Some v => Some v
                       | None => named_filter target reaction quantity k
                       end)
  ∧ (op ∉ ["c4"; "c5"; "c5a"; "c5m"; "c5ma"] →
     cmd_bulk_params target reaction quantity (extra_item <$> pairs) op
     = inl BadOp).
Proof.
  intros Hp. unfold cmd_bulk_params. split; [|split].
  - intros bad rest Hbad.
    assert (Hgood : Forall (λ kv, Py.contains "=" kv = true) (extra_item <$> pairs)).
    { apply Forall_fmap. eapply Forall_impl; [exact Hp|].
      intros [k v] _. apply contains_eq_join. }
    by rewrite (extra_loop_first_bad _ bad rest ∅ Hgood Hbad).
  - intros Hop. rewrite (extra_loop_pairs _ ∅ Hp), (right_id_L ∅ (∪)).
    unfold bulk_params. rewrite bool_decide_eq_true_2 by done.
    eexists. split; [done|]. split; [apply lookup_insert_eq|].
    intros k Hk. rewrite lookup_insert_ne by done.
    by rewrite filter_params_lookup.
  - intros Hop. rewrite (extra_loop_pairs _ ∅ Hp), (right_id_L ∅ (∪)).
    unfold bulk_params. by rewrite bool_decide_eq_false_2.
Qed.

End RequestFacts.

Lemma X12_search_parameters_witness :
  ∃ ps, search_params (Some "PB-204") (Some "") None
          (Some {[ "Target" := "PB-*"; "json" := "1" ]}) "JSON" = inr ps ∧
        ps !! Py.lower "JSON" = Some EmptyString ∧
        ∀ k, k ≠ Py.lower "JSON" →
             ps !! k = filter_param (Some "PB-204") (Some "") None
                         (Some {[ "Target" := "PB-*"; "json" := "1" ]}) k.
Proof.
  apply (proj1 (X12_search_parameters (Some "PB-204") (Some "") None
                  (Some {[ "Target" := "PB-*"; "json" := "1" ]}) "JSON")).
  by apply (bool_decide_eq_true_1 (Py.lower "JSON" ∈ ["json"; "xml"; "csv"; "txt"])).
Defined.

Lemma X13_bulk_parameters_witness :
  ∃ ps, bulk_params (Some "PB-204") None None (Some {[ "op" := "c4" ]}) "c5m" = inr ps ∧
        ps !! "op" = Some "c5m" ∧
        ∀ k, k ≠ "op" →
             ps !! k = filter_param (Some "PB-204") None None (Some {[ "op" := "c4" ]}) k.
Proof.
  apply (proj1 (X13_bulk_parameters (Some "PB-204") None None
                  (Some {[ "op" := "c4" ]}) "c5m" "X")).
  by apply (bool_decide_eq_true_1 ("c5m" ∈ ["c4"; "c5"; "c5a"; "c5m"; "c5ma"])).
Defined.

Lemma X16_bulk_command_witness :
  cmd_bulk_params (Some "PB-204") None None
    ((extra_item <$> [("op", "c4"); ("Target", "PB-*")]) ++ "oops" :: ["x=1"]) "zip"
  = inl (BadExtra "oops").
Proof.
  refine (proj1 (X16_bulk_command (Some "PB-204") None None
                   [("op", "c4"); ("Target", "PB-*")] "zip" _) "oops" ["x=1"] _).
  - repeat constructor.
  - reflexivity.
Defined.

Section MetadataContinuations.

Import Py.

Lemma meta_lines_continuations conts st k old :
  Forall (λ c, startswith c "#+" = true) conts →
  current_key st = Some k → k ≠ EmptyString → meta st !! k = Some old →
  meta_lines conts st
  = MetaState (<[k := foldl continued old conts]> (meta st)) (Some k).
Proof.
  intros H. revert st old. induction H as [|c conts Hc _ IH]; intros st old Hk Hne Hm.
  - simpl. destruct st as [m ck]. simpl in *. subst ck. f_equal.
    by rewrite insert_id.
  - simpl. rewrite (meta_line_continue st c k old Hc Hk Hne Hm).
    rewrite (IH _ (continued old c)); [|done..|apply lookup_insert_eq].
    simpl. by rewrite insert_insert_eq.
Qed.

(** X17: after a recognized field line, continuation lines that follow one
    another append in their order: each one sets the value to the stripped
    join, by one blank, of the value so far and its own stripped content,
    and nothing else in the record changes. *)
Theorem X17_continuations_append_in_order
    (pre conts : list string) (fl key : string) :
  startswith fl "#" = true → candidate_key fl = Some key → key ∈ keys →
  Forall (λ c, startswith c "#+" = true) conts →
  let st1 := meta_lines (pre ++ [fl]) (MetaState ∅ None) in
  ∃ val,
    meta st1 !! key = Some val ∧
    meta_lines (pre ++ fl :: conts) (MetaState ∅ None)
    = MetaState (<[key := foldl continued val conts]> (meta st1)) (Some key).
Proof.
  intros Hh Hk Hin Hconts st1.
  assert (Hnp : startswith fl "#+" = false).
  { destruct (startswith fl "#+") eqn:Hp; [|done].
    apply startswith_hash_plus in Hp as [r ->].
    destruct (candidate_key_plus r) as [t Ht].
    rewrite Ht in Hk. injection Hk as <-. by apply plus_token_not_key in Hin. }
  assert (Hfl : st1 = MetaState
            (<[key := (key_val (split1 (strip (drop_chars 1 fl)))).2]>
               (meta (meta_lines pre (MetaState ∅ None))))
            (Some key)).
  { unfold st1. rewrite meta_lines_app.
    change (meta_lines [fl] ?s) with (meta_line s fl).
    rewrite (meta_line_field _ _ key Hh (or_introl Hnp) Hk).
    by rewrite bool_decide_eq_true_2. }
  exists (key_val (split1 (strip (drop_chars 1 fl)))).2.
  assert (Hval : meta st1 !! key
                 = Some (key_val (split1 (strip (drop_chars 1 fl)))).2).
  { rewrite Hfl. simpl. apply lookup_insert_eq. }
  split; [done|].
  replace (pre ++ fl :: conts) with ((pre ++ [fl]) ++ conts)
    by by rewrite <- app_assoc.
  rewrite meta_lines_app. fold st1.
  apply meta_lines_continuations; [done| |by apply key_not_empty|done].
  by rewrite Hfl.
Qed.

Lemma X17_continuations_append_in_order_witness :
  ∃ val,
    meta (meta_lines ([] ++ ["#AUTHORS A.One,"]) (MetaState ∅ None)) !! "AUTHORS"
    = Some val ∧
    meta_lines ([] ++ "#AUTHORS A.One," :: ["#+  B.Two,"; "#+"; "#+ C.Three "])
      (MetaState ∅ None)
    = MetaState
        (<["AUTHORS" := foldl continued val ["#+  B.Two,"; "#+"; "#+ C.Three "]]>
           (meta (meta_lines ([] ++ ["#AUTHORS A.One,"]) (MetaState ∅ None))))
        (Some "AUTHORS").
Proof.
  apply (X17_continuations_append_in_order [] ["#+  B.Two,"; "#+"; "#+ C.Three "]
           "#AUTHORS A.One," "AUTHORS").
  - reflexivity.
  - reflexivity.
  - by apply (bool_decide_eq_true_1 ("AUTHORS" ∈ keys)).
  - repeat constructor.
Defined.

End MetadataContinuations.
